(** * Stack view: derived state, layout handlers and render instructions

    A shallow embedding of the [Stack] component of
    [src/views/Header/HeaderSegment.tsx] (the second module of that file,
    together with [getDefaultHeaderHeight] of the first one).

    Modelling conventions.
    - A JavaScript object that is compared with [===] carries its address:
      routes, descriptors, the [routes] array, the [descriptors] map and the
      scenes are records with a [*_ref] field, and [===] compares that field.
    - [Animated.Value] objects are mutable and live in a heap; a progress
      value is its location in that heap. [new Animated.Value (v)] allocates.
    - JavaScript numbers are exact rationals ([Qc]); NaN and the infinities
      are outside the model.
    - Objects used as dictionaries are finite maps over their own keys
      ([gmap string _]); [m[k]] is lookup, [undefined] is [None]. This is
      what the code does at every key that is not a property name of
      [Object.prototype]; see [plainKey] and [PlainObject] for the others.
    - Values the component only passes along (transition specs, interpolator
      functions, gesture settings) are modelled by their address.
    - React merges the object returned by [getDerivedStateFromProps] or given
      to [setState] into the state: that object is a [StateUpdate]. *)

From Stdlib Require Import ZArith QArith Qcanon String List Bool.
From stdpp Require Import base option gmap strings list fin_maps.

Local Open Scope string_scope.

(** ** Numbers *)

Abbreviation number := Qc (only parsing).

(** [x === y] on the numbers of the model, which are the finite ones: [NaN],
    the one number that is not [===] to itself, is not among them. *)
Definition number_eqb (x y : number) : bool := Qeq_bool x y.

(** JavaScript truthiness of a number: every number but zero. *)
Definition number_truthy (x : number) : bool := negb (number_eqb x 0%Qc).

(** [a || b] where [a] is a number or [undefined]. *)
Definition number_or (a : option number) (b : number) : number :=
  match a with
  | Some x => if number_truthy x then x else b
  | None => b
  end.

(** [a[i]] on an array: [undefined] outside [0 .. length - 1]. *)
Definition js_index {A : Type} (a : list A) (i : Z) : option A :=
  if (i <? 0)%Z then None else a !! Z.to_nat i.

(** ** The heap of animated values and the allocator *)

Abbreviation loc := nat (only parsing).

Record Heap := mkHeap {
  next_value : loc;              (* next free address for an Animated.Value *)
  values : gmap loc Qc;          (* current number held by each value *)
  next_object : nat              (* next free address for a scene object *)
}.

Definition M (A : Type) : Type := Heap -> A * Heap.

#[global] Instance M_ret : MRet M := fun A a h => (a, h).

#[global] Instance M_bind : MBind M :=
  fun A B f m h => let (a, h') := m h in f a h'.

(** [new Animated.Value (v)] *)
Definition new_Animated_Value (v : number) : M loc :=
  fun h => (next_value h,
            {| next_value := S (next_value h);
               values := <[next_value h := v]> (values h);
               next_object := next_object h |}).

(** The address taken by an object literal. *)
Definition new_object : M nat :=
  fun h => (next_object h,
            {| next_value := next_value h;
               values := values h;
               next_object := S (next_object h) |}).

(** [array.reduce (f, acc)] with an effectful callback. *)
Fixpoint reduce {A B : Type} (f : B -> A -> M B) (a : list A) (acc : B) : M B :=
  match a with
  | [] => mret acc
  | curr :: rest => acc' ← f acc curr; reduce f rest acc'
  end.

(** [array.map ((x, index) => ...)] with an effectful callback, from [index]. *)
Fixpoint map_from {A B : Type} (f : A -> nat -> M B) (a : list A) (index : nat)
  : M (list B) :=
  match a with
  | [] => mret []
  | x :: rest =>
      y ← f x index; ys ← map_from f rest (S index); mret (y :: ys)
  end.

(** [const ANIMATED_ONE = new Animated.Value (1)], allocated when the module
    is loaded: it is the first value of the heap. *)
Definition ANIMATED_ONE : loc := 0%nat.

Definition initial_heap : Heap :=
  {| next_value := 1; values := {[ ANIMATED_ONE := 1%Qc ]}; next_object := 0 |}.

(** ** Animated nodes: the part of the animation library [render] uses *)

Inductive AnimatedNode :=
| Num (n : number)                       (* a plain number *)
| Val (v : loc)                          (* an Animated.Value *)
| Undefined                              (* an operand that is undefined *)
| Eq (a b : AnimatedNode)                (* eq (a, b) *)
| Cond (c t e : AnimatedNode).           (* cond (c, t, e) *)

(** The number a node evaluates to in a heap: [eq] gives 1 or 0, and [cond]
    takes its second argument when the condition is not 0. *)
Fixpoint eval (vs : gmap loc Qc) (n : AnimatedNode) : option Qc :=
  match n with
  | Num x => Some x
  | Val v => vs !! v
  | Undefined => None
  | Eq a b =>
      match eval vs a, eval vs b with
      | Some x, Some y => Some (if number_eqb x y then 1%Qc else 0%Qc)
      | _, _ => None
      end
  | Cond c t e =>
      match eval vs c with
      | Some x => if number_truthy x then eval vs t else eval vs e
      | None => None
      end
  end.

(** ** Imported values *)

Record Layout := mkLayout { width : Qc; height : Qc }.

Record EdgeInsets := mkInsets { top : Qc; right : Qc; bottom : Qc; left : Qc }.

(** Objects and functions that are only handed on, by address. *)
Definition TransitionSpec := nat.
Definition CardStyleInterpolator := nat.
Definition HeaderStyleInterpolator := nat.
Definition GestureDirection := nat.
Definition GestureResponseDistance := nat.

Module TransitionPreset.
Record t := mk {
  gestureDirection : GestureDirection;
  transitionSpec : TransitionSpec;
  cardStyleInterpolator : CardStyleInterpolator;
  headerStyleInterpolator : HeaderStyleInterpolator
}.
End TransitionPreset.

(** The [header] option: unset, [null], or a render function. *)
Inductive HeaderOption := header_undefined | header_null | header_function.

(** The options [Stack] reads; an unset option is [None]. *)
Module Options.
Record t := mk {
  animationEnabled : option bool;
  header : HeaderOption;
  headerShown : option bool;
  headerTransparent : option bool;
  cardTransparent : option bool;
  cardShadowEnabled : option bool;
  cardOverlayEnabled : option bool;
  gestureResponseDistance : option GestureResponseDistance;
  gestureDirection : option GestureDirection;
  transitionSpec : option TransitionSpec;
  cardStyleInterpolator : option CardStyleInterpolator;
  headerStyleInterpolator : option HeaderStyleInterpolator;
  gestureVelocityImpact : option Qc
}.

(** [{}] *)
Definition empty : t :=
  mk None header_undefined None None None None None None None None None None
     None.
End Options.

(** How a call ends: with a value, or by throwing (reading a property of
    [undefined] throws a [TypeError]). *)
Inductive completion (A : Type) :=
| Normal (a : A)
| TypeError.
Arguments Normal {A} a.
Arguments TypeError {A}.

(** What the module imports and does not define: the platform constants,
    [process.env.NODE_ENV], [Screens.screensEnabled ()], the two transition
    presets, the [forNoAnimation] header interpolator, and
    [validateDeprecatedOptions] (utils/validateDeprecatedOptions), a function
    of the repository whose body is not in this file: it is taken as it
    comes, and may throw. *)
Record Imports := mkImports {
  Platform_OS : string;
  Platform_isPad : bool;
  Screens_screensEnabled : bool;
  DefaultTransition : TransitionPreset.t;
  ModalTransition : TransitionPreset.t;
  forNoAnimation : HeaderStyleInterpolator;
  NODE_ENV : string;
  validateDeprecatedOptions : Options.t -> completion unit
}.

(** ** Header heights (first module of the file) *)

Definition Qc_ltb (x y : Qc) : bool :=
  match (x ?= y)%Qc with Lt => true | _ => false end.

Definition getDefaultHeaderHeight (I : Imports) (layout : Layout)
    (insets : option EdgeInsets) : number :=
  let isLandscape := Qc_ltb (height layout) (width layout) in
  let headerHeight : Qc :=
    if String.eqb (Platform_OS I) "ios" then
      if isLandscape && negb (Platform_isPad I) then Q2Qc 32 else Q2Qc 44
    else if String.eqb (Platform_OS I) "android" then Q2Qc 56
    else Q2Qc 64 in
  (headerHeight + match insets with Some i => top i | None => 0 end)%Qc.

(** ** Routes, options, descriptors, scenes *)

Record NavigationRoute := mkRoute {
  route_ref : nat;       (* address of the route object *)
  key : string
}.

(** [a === b] on routes. *)
Definition same_route (a b : NavigationRoute) : bool :=
  Nat.eqb (route_ref a) (route_ref b).


Module Descriptor.
Record t := mk {
  ref : nat;                  (* address of the descriptor object *)
  options : Options.t
}.

(** [a === b] where each side is a descriptor or [undefined]. *)
Definition same (a b : option t) : bool :=
  match a, b with
  | Some x, Some y => Nat.eqb (ref x) (ref y)
  | None, None => true
  | _, _ => false
  end.
End Descriptor.

(** [const FALLBACK_DESCRIPTOR = Object.freeze ({ options: {} })]: one object
    for the whole module, at an address of its own. *)
Definition FALLBACK_DESCRIPTOR : Descriptor.t :=
  {| Descriptor.ref := 0; Descriptor.options := Options.empty |}.

Module SceneProgress.
Record t := mk {
  current : option loc;
  next : option loc;
  previous : option loc
}.
End SceneProgress.

Module Scene.
Record t := mk {
  ref : nat;                              (* address of the scene object *)
  route : NavigationRoute;
  previous : option NavigationRoute;
  descriptor : option Descriptor.t;
  progress : SceneProgress.t
}.
End Scene.

(** The [routes] array and the [descriptors] map are compared by address in
    [getDerivedStateFromProps]. *)
Module Routes.
Record t := mk { ref : nat; items : list NavigationRoute }.
End Routes.

Module SceneDescriptorMap.
Record t := mk { ref : nat; entries : gmap string Descriptor.t }.
End SceneDescriptorMap.

Inductive Mode := card | modal.

(** [navigation.state] *)
Module NavigationState.
Record t := mk { routes : list NavigationRoute; index : nat }.
End NavigationState.

Module Props.
Record t := mk {
  mode : Mode;
  insets : option EdgeInsets;
  navigation : NavigationState.t;
  descriptors : SceneDescriptorMap.t;
  routes : Routes.t;
  openingRoutesKeys : list string;
  closingRoutesKeys : list string;
  getGesturesEnabled : NavigationRoute -> bool;
  headerMode : string
}.
End Props.

Module State.
Record t := mk {
  routes : Routes.t;
  descriptors : SceneDescriptorMap.t;
  scenes : list Scene.t;
  progress : gmap string loc;
  layout : Layout;
  floatingHeaderHeights : gmap string Qc
}.
End State.

(** A partial state: what [getDerivedStateFromProps] returns and what
    [setState] receives. React copies the fields that are set. *)
Module StateUpdate.
Record t := mk {
  routes : option Routes.t;
  descriptors : option SceneDescriptorMap.t;
  scenes : option (list Scene.t);
  progress : option (gmap string loc);
  layout : option Layout;
  floatingHeaderHeights : option (gmap string Qc)
}.

Definition merge (s : State.t) (u : t) : State.t :=
  {| State.routes := default (State.routes s) (routes u);
     State.descriptors := default (State.descriptors s) (descriptors u);
     State.scenes := default (State.scenes s) (scenes u);
     State.progress := default (State.progress s) (progress u);
     State.layout := default (State.layout s) (layout u);
     State.floatingHeaderHeights :=
       default (State.floatingHeaderHeights s) (floatingHeaderHeights u) |}.
End StateUpdate.

(** [getFloatingHeaderHeights], on the own properties of [previous] and of
    the result: what the code computes when no route key is a property name
    of [Object.prototype]. [PlainObject.getFloatingHeaderHeights] below is
    the function on all keys. *)
Definition getFloatingHeaderHeights (I : Imports)
    (routes : list NavigationRoute) (insets : option EdgeInsets)
    (layout : Layout) (previous : gmap string Qc) : gmap string Qc :=
  let defaultHeaderHeight := getDefaultHeaderHeight I layout insets in
  fold_left
    (fun acc curr =>
       <[key curr := number_or (previous !! key curr) defaultHeaderHeight]> acc)
    routes ∅.

(** ** What [render] hands to its children *)

Module TransitionConfig.
Record t := mk {
  transitionSpec : TransitionSpec;
  cardStyleInterpolator : CardStyleInterpolator;
  headerStyleInterpolator : HeaderStyleInterpolator
}.
End TransitionConfig.

(** The props of [<StackItem>] that are data (the callbacks it is given are
    the component's own handlers and the caller's functions, unchanged). *)
Module StackItem.
Record props := mk {
  index : nat;
  active : bool;
  focused : bool;
  closing : bool;
  layout : Layout;
  current : option loc;
  scene : Scene.t;
  previousScene : option Scene.t;
  cardTransparent : option bool;
  cardOverlayEnabled : option bool;
  cardShadowEnabled : option bool;
  floatingHeaderHeight : option Qc;
  headerShown : bool;
  headerMode : string;
  headerTransparent : option bool;
  gestureDirection : GestureDirection;
  transitionSpec : TransitionSpec;
  cardStyleInterpolator : CardStyleInterpolator;
  headerStyleInterpolator : HeaderStyleInterpolator;
  gestureEnabled : bool;
  gestureResponseDistance : option GestureResponseDistance;
  gestureVelocityImpact : option Qc
}.

(** [{...transitionConfig}] written after the other props: its three
    fields replace the ones given before. *)
Definition spread (c : TransitionConfig.t) (p : props) : props :=
  {| index := index p; active := active p; focused := focused p;
     closing := closing p; layout := layout p; current := current p;
     scene := scene p; previousScene := previousScene p;
     cardTransparent := cardTransparent p;
     cardOverlayEnabled := cardOverlayEnabled p;
     cardShadowEnabled := cardShadowEnabled p;
     floatingHeaderHeight := floatingHeaderHeight p;
     headerShown := headerShown p; headerMode := headerMode p;
     headerTransparent := headerTransparent p;
     gestureDirection := gestureDirection p;
     transitionSpec := TransitionConfig.transitionSpec c;
     cardStyleInterpolator := TransitionConfig.cardStyleInterpolator c;
     headerStyleInterpolator := TransitionConfig.headerStyleInterpolator c;
     gestureEnabled := gestureEnabled p;
     gestureResponseDistance := gestureResponseDistance p;
     gestureVelocityImpact := gestureVelocityImpact p |}.
End StackItem.

(** [<MaybeScreen key enabled active> <StackItem .../> </MaybeScreen>] *)
Module MaybeScreen.
Record props := mk {
  key : string;
  enabled : bool;
  active : AnimatedNode;
  children : StackItem.props
}.

Inductive element :=
| AnimatedScreen (active : AnimatedNode) (children : StackItem.props)
| View (children : StackItem.props).

Definition render (I : Imports) (p : props) : element :=
  if negb (String.eqb (Platform_OS I) "ios") && enabled p
     && Screens_screensEnabled I
  then AnimatedScreen (active p) (children p)
  else View (children p).
End MaybeScreen.

(** The argument of [renderHeader] for the floating header. *)
Module HeaderContainer.
Record props := mk {
  mode : string;
  layout : Layout;
  scenes : list Scene.t;
  styleInterpolator : HeaderStyleInterpolator
}.
End HeaderContainer.

Module Rendered.
Record t := mk {
  screens : list MaybeScreen.props;          (* one per route, in order *)
  floatingHeader : option HeaderContainer.props
}.
End Rendered.


(** [array.map] with a callback that may throw. *)
Fixpoint map_throw {A B : Type} (f : A -> nat -> completion B) (a : list A)
    (index : nat) : completion (list B) :=
  match a with
  | [] => Normal []
  | x :: rest =>
      match f x index with
      | TypeError => TypeError
      | Normal y =>
          match map_throw f rest (S index) with
          | TypeError => TypeError
          | Normal ys => Normal (y :: ys)
          end
      end
  end.

(** [x !== false] *)
Definition not_false (x : option bool) : bool :=
  match x with Some false => false | _ => true end.

(** [x = d] in a destructuring pattern: [d] when the property is unset. *)
Definition or_default {A : Type} (x : option A) (d : A) : A :=
  match x with Some a => a | None => d end.

(** ** The component *)

Module Stack.

(** The argument of [new Animated.Value] for a route seen for the first
    time: [includes (key) && descriptor && animationEnabled !== false
    ? 0 : 1]. *)
Definition initialProgress (props : Props.t) (k : string) : Qc :=
  let descriptor :=
    SceneDescriptorMap.entries (Props.descriptors props) !! k in
  if bool_decide (k ∈ Props.openingRoutesKeys props)
     && match descriptor with
        | Some d =>
            not_false (Options.animationEnabled (Descriptor.options d))
        | None => false
        end
  then 0%Qc else 1%Qc.

(** The callback of the [reduce] that builds [progress]. The read
    [state.progress[curr.key]] is a lookup among the own properties, which
    is what the code reads when the key is not a property name of
    [Object.prototype] ([plainKey]). *)
Definition progressReducer (props : Props.t) (state : State.t)
    (acc : gmap string loc) (curr : NavigationRoute) : M (gmap string loc) :=
  match State.progress state !! key curr with
  | Some v => mret (<[key curr := v]> acc)
  | None =>
      v ← new_Animated_Value (initialProgress props (key curr));
      mret (<[key curr := v]> acc)
  end.

(** [props.descriptors[k] || state.descriptors[k] ||
    (oldScene ? oldScene.descriptor : FALLBACK_DESCRIPTOR)], the two reads
    being lookups among the own properties: what the code reads when [k] is
    not a property name of [Object.prototype] ([plainKey]). *)
Definition sceneDescriptor (props : Props.t) (state : State.t)
    (oldScene : option Scene.t) (k : string) : option Descriptor.t :=
  match SceneDescriptorMap.entries (Props.descriptors props) !! k with
  | Some d => Some d
  | None =>
      match SceneDescriptorMap.entries (State.descriptors state) !! k with
      | Some d => Some d
      | None =>
          match oldScene with
          | Some old => Scene.descriptor old
          | None => Some FALLBACK_DESCRIPTOR
          end
      end
  end.

(** The test that lets the old scene object stand for the new one. *)
Definition unchanged (scene oldScene : Scene.t) : bool :=
  same_route (Scene.route scene) (Scene.route oldScene)
  && bool_decide (SceneProgress.current (Scene.progress scene)
                  = SceneProgress.current (Scene.progress oldScene))
  && bool_decide (SceneProgress.next (Scene.progress scene)
                  = SceneProgress.next (Scene.progress oldScene))
  && bool_decide (SceneProgress.previous (Scene.progress scene)
                  = SceneProgress.previous (Scene.progress oldScene))
  && Descriptor.same (Scene.descriptor scene) (Scene.descriptor oldScene).

(** The object literal [{ route, previous, descriptor, progress }] of the
    [map] callback, placed at address [ref]. *)
Definition newScene (props : Props.t) (state : State.t)
    (progress : gmap string loc) (self : list NavigationRoute)
    (route : NavigationRoute) (index : nat) (ref : nat) : Scene.t :=
  let previousRoute := js_index self (Z.of_nat index - 1) in
  let nextRoute := js_index self (Z.of_nat index + 1) in
  let current := progress !! key route in
  let previous :=
    match previousRoute with Some r => progress !! key r | None => None end in
  let next :=
    match nextRoute with Some r => progress !! key r | None => None end in
  let oldScene := State.scenes state !! index in
  {| Scene.ref := ref;
     Scene.route := route;
     Scene.previous := previousRoute;
     Scene.descriptor := sceneDescriptor props state oldScene (key route);
     Scene.progress :=
       {| SceneProgress.current := current;
          SceneProgress.next := next;
          SceneProgress.previous := previous |} |}.

(** [if (oldScene && ...) { return oldScene; } return scene;] *)
Definition memoized (oldScene : option Scene.t) (scene : Scene.t) : Scene.t :=
  match oldScene with
  | Some old => if unchanged scene old then old else scene
  | None => scene
  end.

(** The callback of the [map] that builds [scenes]. *)
Definition sceneMapper (props : Props.t) (state : State.t)
    (progress : gmap string loc) (self : list NavigationRoute)
    (route : NavigationRoute) (index : nat) : M Scene.t :=
  ref ← new_object;
  mret (memoized (State.scenes state !! index)
          (newScene props state progress self route index ref)).

(** [props.routes === state.routes &&
    props.descriptors === state.descriptors] *)
Definition sameInputs (props : Props.t) (state : State.t) : bool :=
  Nat.eqb (Routes.ref (Props.routes props)) (Routes.ref (State.routes state))
  && Nat.eqb (SceneDescriptorMap.ref (Props.descriptors props))
             (SceneDescriptorMap.ref (State.descriptors state)).

(** [None] is [return null]. Every property read on a value that may be
    [undefined] sits behind a guard ([descriptor &&], [oldScene &&],
    [previousRoute ?]), so the function has no throwing path. *)
Definition getDerivedStateFromProps (I : Imports) (props : Props.t)
    (state : State.t) : M (option StateUpdate.t) :=
  if sameInputs props state then mret None
  else
    let routes := Routes.items (Props.routes props) in
    progress ← reduce (progressReducer props state) routes ∅;
    scenes ← map_from (sceneMapper props state progress routes) routes 0;
    mret (Some
      {| StateUpdate.routes := Some (Props.routes props);
         StateUpdate.scenes := Some scenes;
         StateUpdate.progress := Some progress;
         StateUpdate.descriptors := Some (Props.descriptors props);
         StateUpdate.layout := None;
         StateUpdate.floatingHeaderHeights :=
           Some (getFloatingHeaderHeights I routes (Props.insets props)
                   (State.layout state) (State.floatingHeaderHeights state))
      |}).

(** The state after React has merged the result, [null] leaving it as is. *)
Definition derive (I : Imports) (props : Props.t) (state : State.t)
    : M State.t :=
  u ← getDerivedStateFromProps I props state;
  mret match u with
       | Some u => StateUpdate.merge state u
       | None => state
       end.

(** The field initialiser [state = { routes: [], scenes: [], ... }]:
    [fresh] is the address of the new empty array and [window] the
    dimensions read when the module is loaded. *)
Definition initialState (fresh : nat) (window : Layout) (props : Props.t)
    : State.t :=
  {| State.routes := {| Routes.ref := fresh; Routes.items := [] |};
     State.scenes := [];
     State.progress := ∅;
     State.layout := window;
     State.descriptors := Props.descriptors props;
     State.floatingHeaderHeights := ∅ |}.

(** [handleLayout], where [e] is [e.nativeEvent.layout]: [None] is the
    early [return], [Some u] is [this.setState (u)]. *)
Definition handleLayout (I : Imports) (props : Props.t) (state : State.t)
    (e : Layout) : option StateUpdate.t :=
  if number_eqb (height e) (height (State.layout state))
     && number_eqb (width e) (width (State.layout state))
  then None
  else
    let layout := {| width := width e; height := height e |} in
    Some {| StateUpdate.routes := None;
            StateUpdate.descriptors := None;
            StateUpdate.scenes := None;
            StateUpdate.progress := None;
            StateUpdate.layout := Some layout;
            StateUpdate.floatingHeaderHeights :=
              Some (getFloatingHeaderHeights I
                      (Routes.items (Props.routes props))
                      (Props.insets props) layout ∅) |}.

(** [handleFloatingHeaderLayout]: [None] is the early [return], [Some f]
    is [this.setState (f)] with the updater function [f]. *)
Definition handleFloatingHeaderLayout (state : State.t)
    (route : NavigationRoute) (height : Qc)
    : option (State.t -> StateUpdate.t) :=
  let previousHeight := State.floatingHeaderHeights state !! key route in
  if match previousHeight with
     | Some p => number_truthy p && number_eqb p height
     | None => false
     end
  then None
  else
    Some (fun state =>
      {| StateUpdate.routes := None;
         StateUpdate.descriptors := None;
         StateUpdate.scenes := None;
         StateUpdate.progress := None;
         StateUpdate.layout := None;
         StateUpdate.floatingHeaderHeights :=
           Some (<[key route := height]>
                   (State.floatingHeaderHeights state)) |}).

(** [mode === 'modal' ? ModalTransition : DefaultTransition], with the
    header interpolator replaced when [headerMode === 'screen']. *)
Definition defaultTransitionPreset (I : Imports) (props : Props.t)
    : TransitionPreset.t :=
  let preset :=
    match Props.mode props with
    | modal => ModalTransition I
    | card => DefaultTransition I
    end in
  if String.eqb (Props.headerMode props) "screen" then
    {| TransitionPreset.gestureDirection :=
         TransitionPreset.gestureDirection preset;
       TransitionPreset.transitionSpec :=
         TransitionPreset.transitionSpec preset;
       TransitionPreset.cardStyleInterpolator :=
         TransitionPreset.cardStyleInterpolator preset;
       TransitionPreset.headerStyleInterpolator := forNoAnimation I |}
  else preset.

(** [d ? d.options : {}] *)
Definition optionsOf (d : option Descriptor.t) : Options.t :=
  match d with
  | Some d => Descriptor.options d
  | None => Options.empty
  end.

(** The three fields that are destructured with the preset's value as
    default, once from the scene's options and once from the next one's. *)
Definition transitionConfigOf (preset : TransitionPreset.t) (o : Options.t)
    : TransitionConfig.t :=
  {| TransitionConfig.transitionSpec :=
       or_default (Options.transitionSpec o)
                  (TransitionPreset.transitionSpec preset);
     TransitionConfig.cardStyleInterpolator :=
       or_default (Options.cardStyleInterpolator o)
                  (TransitionPreset.cardStyleInterpolator preset);
     TransitionConfig.headerStyleInterpolator :=
       or_default (Options.headerStyleInterpolator o)
                  (TransitionPreset.headerStyleInterpolator preset) |}.

(** [self[index + 1] ? progress[self[index + 1].key] : ANIMATED_ONE] *)
Definition nextProgress (progress : gmap string loc)
    (self : list NavigationRoute) (index : nat) : AnimatedNode :=
  match self !! (index + 1)%nat with
  | Some r =>
      match progress !! key r with
      | Some v => Val v
      | None => Undefined
      end
  | None => Val ANIMATED_ONE
  end.

Definition isScreenActive (I : Imports) (self : list NavigationRoute)
    (index : nat) (next : AnimatedNode) : AnimatedNode :=
  if (Z.of_nat index =? Z.of_nat (length self) - 1)%Z then Num 1%Qc
  else if String.eqb (Platform_OS I) "android" then
    Cond (Eq next (Num 1%Qc)) (Num 0%Qc) (Num 1%Qc)
  else if (Z.of_nat index =? Z.of_nat (length self) - 2)%Z then Num 1%Qc
  else Num 0%Qc.

(** [if (process.env.NODE_ENV !== 'production' && scene.descriptor &&
    scene.descriptor.options) { validateDeprecatedOptions (...) }] *)
Definition validateScene (I : Imports) (scene : Scene.t) : completion unit :=
  if negb (String.eqb (NODE_ENV I) "production") then
    match Scene.descriptor scene with
    | Some d => validateDeprecatedOptions I (Descriptor.options d)
    | None => Normal tt
    end
  else Normal tt.

(** The callback of [routes.map] in [render]. The functions the caller
    passes in ([getGesturesEnabled]) are taken to return. *)
Definition renderRoute (I : Imports) (props : Props.t) (state : State.t)
    (focusedRoute : NavigationRoute) (self : list NavigationRoute)
    (route : NavigationRoute) (index : nat) : completion MaybeScreen.props :=
  let scenes := State.scenes state in
  let progress := State.progress state in
  let defaultTransitionPreset := defaultTransitionPreset I props in
  let focused := String.eqb (key focusedRoute) (key route) in
  let current := progress !! key route in
  match scenes !! index with
  | None => TypeError                       (* [scene.descriptor] *)
  | Some scene =>
      match validateScene I scene with
      | TypeError => TypeError
      | Normal _ =>
      let next := nextProgress progress self index in
      let isScreenActive := isScreenActive I self index next in
      let o := optionsOf (Scene.descriptor scene) in
      let gestureDirection :=
        or_default (Options.gestureDirection o)
          (TransitionPreset.gestureDirection defaultTransitionPreset) in
      let own := transitionConfigOf defaultTransitionPreset o in
      let transitionConfig :=
        if negb (Z.of_nat index =? Z.of_nat (length self) - 1)%Z then
          match scenes !! (index + 1)%nat with
          | Some nextScene =>
              transitionConfigOf defaultTransitionPreset
                (optionsOf (Scene.descriptor nextScene))
          | None => own
          end
        else own in
      Normal
        {| MaybeScreen.key := key route;
           MaybeScreen.enabled :=
             match Props.mode props with modal => false | card => true end;
           MaybeScreen.active := isScreenActive;
           MaybeScreen.children :=
             StackItem.spread transitionConfig
               {| StackItem.index := index;
                  StackItem.active :=
                    (Z.of_nat index =? Z.of_nat (length self) - 1)%Z;
                  StackItem.focused := focused;
                  StackItem.closing :=
                    bool_decide (key route ∈ Props.closingRoutesKeys props);
                  StackItem.layout := State.layout state;
                  StackItem.current := current;
                  StackItem.scene := scene;
                  StackItem.previousScene :=
                    js_index scenes (Z.of_nat index - 1);
                  StackItem.cardTransparent := Options.cardTransparent o;
                  StackItem.cardOverlayEnabled :=
                    Options.cardOverlayEnabled o;
                  StackItem.cardShadowEnabled := Options.cardShadowEnabled o;
                  StackItem.floatingHeaderHeight :=
                    State.floatingHeaderHeights state !! key route;
                  StackItem.headerShown :=
                    match Options.header o with
                    | header_null => false
                    | _ => true
                    end && not_false (Options.headerShown o);
                  StackItem.headerMode := Props.headerMode props;
                  StackItem.headerTransparent := Options.headerTransparent o;
                  StackItem.gestureDirection := gestureDirection;
                  StackItem.transitionSpec :=
                    TransitionConfig.transitionSpec own;
                  StackItem.cardStyleInterpolator :=
                    TransitionConfig.cardStyleInterpolator own;
                  StackItem.headerStyleInterpolator :=
                    TransitionConfig.headerStyleInterpolator own;
                  StackItem.gestureEnabled :=
                    negb (Nat.eqb index 0)
                    && Props.getGesturesEnabled props route;
                  StackItem.gestureResponseDistance :=
                    Options.gestureResponseDistance o;
                  StackItem.gestureVelocityImpact :=
                    Options.gestureVelocityImpact o |} |}
      end
  end.

(** [render]. It throws where the code reads a property of [undefined]:
    no focused route, no scene for a route, or a validation that throws.
    The scenes are those of the state, whose descriptors were looked up
    among own properties ([sceneDescriptor]). *)
Definition render (I : Imports) (props : Props.t) (state : State.t)
    : completion Rendered.t :=
  let navigation := Props.navigation props in
  match NavigationState.routes navigation
          !! NavigationState.index navigation with
  | None => TypeError                       (* [focusedRoute.key] *)
  | Some focusedRoute =>
      let focusedDescriptor :=
        SceneDescriptorMap.entries (Props.descriptors props)
          !! key focusedRoute in
      let focusedOptions := optionsOf focusedDescriptor in
      let defaultTransitionPreset := defaultTransitionPreset I props in
      let routes := Routes.items (Props.routes props) in
      match map_throw (renderRoute I props state focusedRoute routes)
              routes 0 with
      | TypeError => TypeError
      | Normal screens =>
          Normal
            {| Rendered.screens := screens;
               Rendered.floatingHeader :=
                 if String.eqb (Props.headerMode props) "float" then
                   Some
                     {| HeaderContainer.mode := "float";
                        HeaderContainer.layout := State.layout state;
                        HeaderContainer.scenes := State.scenes state;
                        HeaderContainer.styleInterpolator :=
                          match Options.headerStyleInterpolator
                                  focusedOptions with
                          | Some f => f
                          | None =>
                              TransitionPreset.headerStyleInterpolator
                                defaultTransitionPreset
                          end |}
                 else None |}
      end
  end.

End Stack.

(** ** The component over time

    The component holds its current props and state; the heap is shared
    with the animation driver. React calls [getDerivedStateFromProps] before
    every render: when new props arrive and after every [setState]. *)

Module Component.
Record t := mk { props : Props.t; state : State.t; heap : Heap }.
End Component.

Inductive Event :=
| Receive (props : Props.t)                 (* the parent passes new props *)
| ContainerLayout (e : Layout)              (* [onLayout] of the container *)
| FloatingHeaderLayout (route : NavigationRoute) (height : Qc)
                                            (* [onContentHeightChange] *)
| Animate (v : loc) (x : Qc).               (* the driver writes a value *)

Definition rederive (I : Imports) (props : Props.t) (state : State.t)
    (h : Heap) : Component.t :=
  let (state', h') := Stack.derive I props state h in
  {| Component.props := props; Component.state := state';
     Component.heap := h' |}.

Definition step (I : Imports) (c : Component.t) (ev : Event) : Component.t :=
  let props := Component.props c in
  let state := Component.state c in
  let h := Component.heap c in
  match ev with
  | Receive props' => rederive I props' state h
  | ContainerLayout e =>
      match Stack.handleLayout I props state e with
      | None => c
      | Some u => rederive I props (StateUpdate.merge state u) h
      end
  | FloatingHeaderLayout route height =>
      match Stack.handleFloatingHeaderLayout state route height with
      | None => c
      | Some f => rederive I props (StateUpdate.merge state (f state)) h
      end
  | Animate v x =>
      {| Component.props := props; Component.state := state;
         Component.heap :=
           {| next_value := next_value h;
              values := alter (fun _ => x) v (values h);
              next_object := next_object h |} |}
  end.

Definition run (I : Imports) (c : Component.t) (evs : list Event)
    : Component.t :=
  fold_left (step I) evs c.

(** The keys of a route list. *)
Definition keys (routes : list NavigationRoute) : list string := map key routes.

(** An event keeps the key [K] when the route list it brings has it. *)
Definition keeps (K : string) (ev : Event) : Prop :=
  match ev with
  | Receive props => K ∈ keys (Routes.items (Props.routes props))
  | _ => True
  end.

(** ** The seed as the specification words it *)

(** C2 as it is worded: 0 when the key is among the opening keys and the
    [animationEnabled] option of its descriptor is not explicitly [false],
    1 for every other key. *)
Definition specifiedSeed (props : Props.t) (K : string) : Qc :=
  let animationEnabled :=
    SceneDescriptorMap.entries (Props.descriptors props) !! K
      ≫= fun d => Options.animationEnabled (Descriptor.options d) in
  if bool_decide (K ∈ Props.openingRoutesKeys props)
     && negb (bool_decide (animationEnabled = Some false))
  then 0%Qc else 1%Qc.

(** ** Sample data *)

Module Sample.

Definition imports (os : string) : Imports :=
  {| Platform_OS := os; Platform_isPad := false;
     Screens_screensEnabled := true;
     DefaultTransition := TransitionPreset.mk 10 11 12 13;
     ModalTransition := TransitionPreset.mk 20 21 22 23;
     forNoAnimation := 99;
     NODE_ENV := "development";
     validateDeprecatedOptions := fun _ => Normal tt |}.

Definition A := mkRoute 1 "A".
Definition B := mkRoute 2 "B".
Definition C := mkRoute 3 "C".
Definition D := mkRoute 4 "D".

Definition optionsA : Options.t :=
  Options.mk None header_undefined None None None None None
    (Some 35) (Some 34) (Some 31) (Some 32) (Some 33) (Some (Q2Qc 3)).
Definition optionsB : Options.t :=
  Options.mk (Some false) header_undefined None None None None None
    (Some 45) (Some 44) (Some 41) (Some 42) (Some 43) (Some (Q2Qc 4)).
Definition optionsC : Options.t :=
  Options.mk None header_undefined None None None None None
    None None (Some 51) None (Some 53) None.

Definition dA := Descriptor.mk 1 optionsA.
Definition dB := Descriptor.mk 2 optionsB.
Definition dC := Descriptor.mk 3 optionsC.

Definition window := mkLayout (Q2Qc 320) (Q2Qc 640).
Definition landscape := mkLayout (Q2Qc 640) (Q2Qc 320).
Definition insets := Some (mkInsets (Q2Qc 20) 0%Qc 0%Qc 0%Qc).

Definition mkProps (ref : nat) (routes : list NavigationRoute)
    (descriptors : gmap string Descriptor.t) (opening : list string)
    (focused : nat) (headerMode : string) : Props.t :=
  {| Props.mode := card;
     Props.insets := insets;
     Props.navigation := NavigationState.mk routes focused;
     Props.descriptors := SceneDescriptorMap.mk ref descriptors;
     Props.routes := Routes.mk ref routes;
     Props.openingRoutesKeys := opening;
     Props.closingRoutesKeys := [];
     Props.getGesturesEnabled := fun _ => true;
     Props.headerMode := headerMode |}.

(** One route, then three with two of them opening, then the first and
    the last of those. *)
Definition props1 := mkProps 1 [A] {[ "A" := dA ]} [] 0 "float".
Definition props2 :=
  mkProps 2 [A; B; C] (<["A" := dA]> (<["B" := dB]> {[ "C" := dC ]}))
    ["B"; "C"] 2 "float".
Definition props3 := mkProps 3 [A; C] {[ "A" := dA ]} [] 1 "float".

(** A route that opens before its descriptor is there. *)
Definition props4 := mkProps 4 [A; D] {[ "A" := dA ]} ["D"] 1 "float".

(** Four routes without descriptors. *)
Definition props5 := mkProps 5 [A; B; C; D] ∅ [] 3 "float".

Definition mounted (os : string) (props : Props.t) : Component.t :=
  rederive (imports os) props (Stack.initialState 0 window props)
    initial_heap.

End Sample.

(** ** The container of the screens *)

(** [MaybeScreenContainer]: the native container under the same test as
    [MaybeScreen], a plain view otherwise. *)
Module MaybeScreenContainer.
Inductive element := ScreenContainer | View.

Definition render (I : Imports) (enabled : bool) : element :=
  if negb (String.eqb (Platform_OS I) "ios") && enabled
     && Screens_screensEnabled I
  then ScreenContainer
  else View.
End MaybeScreenContainer.

(** The container [render] wraps the screens in:
    [<MaybeScreenContainer enabled={mode !== 'modal'} ...>]. *)
Definition renderContainer (I : Imports) (props : Props.t)
    : MaybeScreenContainer.element :=
  MaybeScreenContainer.render I
    match Props.mode props with modal => false | card => true end.

(** ** Plain objects as dictionaries

    [progress], [descriptors] and [floatingHeaderHeights] are plain objects.
    Reading [o[k]] finds the own property [k] and, without one, the member
    of [Object.prototype] of that name; writing [o[k] = v] makes an own
    property, except for ['__proto__'], whose setter makes none. The finite
    maps of this development hold the own properties: lookup and insert are
    the code's read and write at every key that is not a property name of
    [Object.prototype]. Statements that read an entry by key say so with
    [plainKey]; [PlainObject] models the other keys. A state is taken as its
    type declares it: the scenes and the descriptor maps hold descriptors,
    the header height map holds numbers. *)

(** The property names of [Object.prototype]. *)
Definition ObjectPrototype : list string :=
  ["constructor"; "__defineGetter__"; "__defineSetter__"; "hasOwnProperty";
   "__lookupGetter__"; "__lookupSetter__"; "isPrototypeOf";
   "propertyIsEnumerable"; "toString"; "valueOf"; "__proto__";
   "toLocaleString"].

Definition plainKey (k : string) : bool :=
  negb (existsb (String.eqb k) ObjectPrototype).

Module PlainObject.

(** What a property read gives: a value of the dictionary, or the function
    or object that [Object.prototype] has under a name. *)
Inductive value (A : Type) :=
| Data (a : A)
| Builtin (name : string).
Arguments Data {A} a.
Arguments Builtin {A} name.

(** [o[k]], [o] being given by its own properties. *)
Definition get {A : Type} (o : gmap string (value A)) (k : string)
    : option (value A) :=
  match o !! k with
  | Some v => Some v
  | None => if plainKey k then None else Some (Builtin k)
  end.

(** [o[k] = v]. In the code below the value written under ['__proto__'] is
    a number, which the setter ignores, or [Object.prototype] itself, so the
    prototype of [o] stays [Object.prototype]. *)
Definition set {A : Type} (o : gmap string (value A)) (k : string)
    (v : value A) : gmap string (value A) :=
  if String.eqb k "__proto__" then o else <[k := v]> o.

(** [a || d] where [a] is what a read gave: a function or an object is
    truthy, a number is truthy unless it is 0. *)
Definition or_number (a : option (value Qc)) (d : Qc) : value Qc :=
  match a with
  | Some (Data x) => if number_truthy x then Data x else Data d
  | Some (Builtin name) => Builtin name
  | None => Data d
  end.

(** [getFloatingHeaderHeights] on plain objects. *)
Definition getFloatingHeaderHeights (I : Imports)
    (routes : list NavigationRoute) (insets : option EdgeInsets)
    (layout : Layout) (previous : gmap string (value Qc))
    : gmap string (value Qc) :=
  let defaultHeaderHeight := getDefaultHeaderHeight I layout insets in
  fold_left
    (fun acc curr =>
       set acc (key curr)
         (or_number (get previous (key curr)) defaultHeaderHeight))
    routes ∅.

(** The [floatingHeaderHeights] that [handleLayout] gives to [setState],
    [None] being the early [return]. *)
Definition handleLayout (I : Imports) (props : Props.t) (state : State.t)
    (e : Layout) : option (gmap string (value Qc)) :=
  if number_eqb (height e) (height (State.layout state))
     && number_eqb (width e) (width (State.layout state))
  then None
  else
    let layout := {| width := width e; height := height e |} in
    Some (getFloatingHeaderHeights I (Routes.items (Props.routes props))
            (Props.insets props) layout ∅).

End PlainObject.

(** The validation of the options returns: the build is a production build,
    where it is not called, or [validateDeprecatedOptions] returns whatever
    the options. *)
Definition validationReturns (I : Imports) : Prop :=
  NODE_ENV I = "production" \/
  forall o, validateDeprecatedOptions I o = Normal tt.

(** ** Allocation discipline

    What holds of the progress map and the heap of a running component:
    the sentinel is allocated, every progress value is an allocated cell
    other than the sentinel, and two keys never share a value. *)
Definition allocated (progress : gmap string loc) (h : Heap) : Prop :=
  (ANIMATED_ONE < next_value h)%nat /\
  (forall K v, progress !! K = Some v ->
     (ANIMATED_ONE < v < next_value h)%nat /\ is_Some (values h !! v)) /\
  (forall K K' v, progress !! K = Some v -> progress !! K' = Some v -> K = K').

(** The same discipline for the accumulator of the [reduce] that builds the
    progress map, [n0] being the first free address when it started: its
    values are allocated cells, those older than [n0] are the previous
    state's for the same key, and no two keys share one. *)
Definition accumulated (previous : gmap string loc) (n0 : loc)
    (acc : gmap string loc) (h : Heap) : Prop :=
  (n0 <= next_value h)%nat /\
  (forall K v, previous !! K = Some v -> is_Some (values h !! v)) /\
  (forall K v, acc !! K = Some v ->
     (ANIMATED_ONE < v < next_value h)%nat /\ is_Some (values h !! v) /\
     ((v < n0)%nat -> previous !! K = Some v)) /\
  (forall K K' v, acc !! K = Some v -> acc !! K' = Some v -> K = K').

(** The scene objects of a state are allocated and pairwise distinct. *)
Definition scenes_allocated (scenes : list Scene.t) (h : Heap) : Prop :=
  (forall i scene, scenes !! i = Some scene ->
     (Scene.ref scene < next_object h)%nat) /\
  (forall i j scene scene',
     scenes !! i = Some scene -> scenes !! j = Some scene' ->
     Scene.ref scene = Scene.ref scene' -> i = j).

(** ** The header segment (first module of the file) *)

Module HeaderSegment.

Record State := mkState {
  titleLayout : option Layout;
  leftLabelLayout : option Layout
}.

(** The two [setState] calls of the component. *)
Inductive Update :=
| SetTitleLayout (l : Layout)
| SetLeftLabelLayout (l : Layout).

Definition setState (s : State) (u : Update) : State :=
  match u with
  | SetTitleLayout l =>
      {| titleLayout := Some l; leftLabelLayout := leftLabelLayout s |}
  | SetLeftLabelLayout l =>
      {| titleLayout := titleLayout s; leftLabelLayout := Some l |}
  end.

(** [handleTitleLayout], where [e] is [e.nativeEvent.layout]: [None] is the
    early [return]. *)
Definition handleTitleLayout (state : State) (e : Layout) : option Update :=
  if match titleLayout state with
     | Some titleLayout =>
         number_eqb (height e) (height titleLayout)
         && number_eqb (width e) (width titleLayout)
     | None => false
     end
  then None
  else Some (SetTitleLayout {| width := width e; height := height e |}).

Definition handleLeftLabelLayout (state : State) (e : Layout)
    : option Update :=
  if match leftLabelLayout state with
     | Some leftLabelLayout =>
         number_eqb (height e) (height leftLabelLayout)
         && number_eqb (width e) (width leftLabelLayout)
     | None => false
     end
  then None
  else Some (SetLeftLabelLayout {| width := width e; height := height e |}).

(** A style value that is not [undefined]. *)
Inductive StyleValue :=
| StyleNull
| StyleNumber (n : Qc)
| StyleString (s : string)
| StyleObject (address : nat).

(** A flattened style object: its own keys in order, each with its value or
    [undefined] ([None]). The keys of an object are distinct. *)
Definition ViewStyle := list (string * option StyleValue).

(** [style[k]] *)
Fixpoint get (style : ViewStyle) (k : string) : option StyleValue :=
  match style with
  | [] => None
  | (k', v) :: rest => if String.eqb k' k then v else get rest k
  end.

(** The three keys destructured for the outer view only. *)
Definition sizeKeys : list string := ["height"; "minHeight"; "maxHeight"].

(** The keys copied into [safeStyles], in the order of the object literal. *)
Definition safeKeys : list string :=
  ["backgroundColor"; "borderBottomColor"; "borderBottomEndRadius";
   "borderBottomLeftRadius"; "borderBottomRightRadius";
   "borderBottomStartRadius"; "borderBottomWidth"; "borderColor";
   "borderEndColor"; "borderEndWidth"; "borderLeftColor"; "borderLeftWidth";
   "borderRadius"; "borderRightColor"; "borderRightWidth"; "borderStartColor";
   "borderStartWidth"; "borderStyle"; "borderTopColor"; "borderTopEndRadius";
   "borderTopLeftRadius"; "borderTopRightRadius"; "borderTopStartRadius";
   "borderTopWidth"; "borderWidth"; "boxShadow"; "elevation"; "shadowColor";
   "shadowOffset"; "shadowOpacity"; "shadowRadius"; "opacity"].

(** [includes] on a list of keys. *)
Definition includes (ks : list string) (k : string) : bool :=
  existsb (String.eqb k) ks.

(** [...unsafeStyles]: the own keys the pattern does not name. *)
Definition unsafeStyles (style : ViewStyle) : ViewStyle :=
  List.filter (fun p => negb (includes (sizeKeys ++ safeKeys) (fst p))) style.

(** The object literal [{ backgroundColor, ..., opacity }] followed by the
    loop that deletes the keys whose value is [undefined]. *)
Definition safeStyles (style : ViewStyle) : ViewStyle :=
  List.filter (fun p => match snd p with Some _ => true | None => false end)
    (List.map (fun k => (k, get style k)) safeKeys).

(** The two messages of [console.warn]. *)
Inductive Warning :=
| PositionAbsolute
| NoEffect (styleProp : string) (value : StyleValue).

Definition warnIfHeaderStylesDefined (styles : ViewStyle) : list Warning :=
  flat_map
    (fun p =>
       match snd p with
       | Some value =>
           if String.eqb (fst p) "position"
              && match value with
                 | StyleString s => String.eqb s "absolute"
                 | _ => false
                 end
           then [PositionAbsolute]
           else [NoEffect (fst p) value]
       | None => []
       end)
    styles.

(** What [render] warns about: nothing when [process.env.NODE_ENV] is
    ['production']. *)
Definition renderWarnings (production : bool) (style : ViewStyle)
    : list Warning :=
  if production then [] else warnIfHeaderStylesDefined (unsafeStyles style).

(** [height = getDefaultHeaderHeight (layout, this.context)] of the
    destructuring: the style's height unless it is [undefined]. *)
Definition headerHeight (I : Imports) (layout : Layout)
    (context : option EdgeInsets) (style : ViewStyle) : StyleValue :=
  match get style "height" with
  | Some v => v
  | None => StyleNumber (getDefaultHeaderHeight I layout context)
  end.

End HeaderSegment.

(** ** More sample data *)

Module MoreSamples.

(** The three routes again, in a new array, with B opening. *)
Definition props6 : Props.t :=
  Sample.mkProps 6 [Sample.A; Sample.B; Sample.C]
    (<["B" := Sample.dB]> {[ "A" := Sample.dA ]}) ["B"] 1 "float".

(** A navigation state whose index is out of range. *)
Definition props7 : Props.t :=
  Sample.mkProps 7 [Sample.A; Sample.B] {[ "A" := Sample.dA ]} [] 5 "screen".

(** Header mode ['screen']. *)
Definition props8 : Props.t :=
  Sample.mkProps 8 [Sample.A; Sample.C]
    (<["A" := Sample.dA]> {[ "C" := Sample.dC ]}) [] 1 "screen".

Definition modalProps : Props.t :=
  {| Props.mode := modal;
     Props.insets := None;
     Props.navigation := NavigationState.mk [Sample.A; Sample.B] 1;
     Props.descriptors := SceneDescriptorMap.mk 9 ∅;
     Props.routes := Routes.mk 9 [Sample.A; Sample.B];
     Props.openingRoutesKeys := [];
     Props.closingRoutesKeys := [];
     Props.getGesturesEnabled := fun _ => true;
     Props.headerMode := "float" |}.

(** A route whose key is a property name of [Object.prototype]. *)
Definition props9 : Props.t :=
  Sample.mkProps 10 [Sample.A; mkRoute 5 "constructor"] ∅ [] 0 "float".

Definition style : HeaderSegment.ViewStyle :=
  [("height", Some (HeaderSegment.StyleNumber (Q2Qc 80)));
   ("backgroundColor", Some (HeaderSegment.StyleString "red"));
   ("borderColor", None);
   ("position", Some (HeaderSegment.StyleString "absolute"));
   ("flex", Some (HeaderSegment.StyleNumber 1%Qc));
   ("margin", None)].

End MoreSamples.

(** * Properties *)

(** Membership of a key in a concrete key list. *)
Ltac has_key := apply list_elem_of_In; vm_compute; auto 10.

(** In a hypothesis that the [map] callback of [render] completed, the
    validation of the scene's options has returned. *)
Ltac validated H :=
  match type of H with
  | context [Stack.validateScene ?I ?scene] =>
      destruct (Stack.validateScene I scene); [| discriminate H]
  end.

(** ** Numbers and arrays *)

Lemma number_eqb_eq (x y : Qc) : number_eqb x y = true <-> x = y.
Proof.
  unfold number_eqb. rewrite Qeq_bool_iff. split.
  - apply Qc_is_canon.
  - intros ->. reflexivity.
Qed.

Lemma number_eqb_refl (x : Qc) : number_eqb x x = true.
Proof. by apply number_eqb_eq. Qed.

Lemma number_eqb_neq (x y : Qc) : number_eqb x y = false <-> x <> y.
Proof.
  rewrite <- number_eqb_eq. destruct (number_eqb x y); split; congruence.
Qed.

Lemma number_truthy_nonzero (x : Qc) : number_truthy x = true <-> x <> 0%Qc.
Proof.
  unfold number_truthy. rewrite negb_true_iff. apply number_eqb_neq.
Qed.


Lemma js_index_before_first {A : Type} (a : list A) :
  js_index a (Z.of_nat 0 - 1) = None.
Proof. reflexivity. Qed.


Lemma map_throw_lookup {A B : Type} (f : A -> nat -> completion B) :
  forall (a : list A) (start : nat) (ys : list B),
    map_throw f a start = Normal ys ->
    length ys = length a /\
    forall i x, a !! i = Some x ->
      exists y, ys !! i = Some y /\ f x (start + i)%nat = Normal y.
Proof.
  induction a as [| x rest IH]; intros start ys Hm; simpl in Hm.
  - inversion Hm; subst. split; [done |]. intros i x Hx. by destruct i.
  - destruct (f x start) as [y |] eqn:Hy; [| discriminate].
    destruct (map_throw f rest (S start)) as [ys' |] eqn:Hr; [| discriminate].
    inversion Hm; subst. destruct (IH _ _ Hr) as [Hlen Hall].
    split; [simpl; by rewrite Hlen |].
    intros [| i] z Hz; simpl in Hz.
    + inversion Hz; subst. exists y. by rewrite Nat.add_0_r.
    + destruct (Hall i z Hz) as (w & Hw & Hf). exists w. split; [done |].
      by replace (start + S i)%nat with (S start + i)%nat by lia.
Qed.

Lemma map_throw_total {A B : Type} (f : A -> nat -> completion B) :
  forall (a : list A) (start : nat),
    (forall i x, a !! i = Some x -> exists y, f x (start + i)%nat = Normal y) ->
    exists ys, map_throw f a start = Normal ys.
Proof.
  induction a as [| x rest IH]; intros start Hall; simpl.
  - by eexists.
  - destruct (Hall 0%nat x eq_refl) as [y Hy].
    rewrite Nat.add_0_r in Hy. rewrite Hy.
    destruct (IH (S start)) as [ys Hys].
    + intros i z Hz. destruct (Hall (S i) z Hz) as [w Hw]. exists w.
      by replace (S start + i)%nat with (start + S i)%nat by lia.
    + rewrite Hys. by eexists.
Qed.

(** ** The allocator and the two loops of the derivation *)

Lemma reduce_cons {A B : Type} (f : B -> A -> M B) x rest acc h :
  reduce f (x :: rest) acc h = let (acc', h') := f acc x h in reduce f rest acc' h'.
Proof. reflexivity. Qed.

Lemma map_from_cons {A B : Type} (f : A -> nat -> M B) x rest index h :
  map_from f (x :: rest) index h =
  let (y, h1) := f x index h in
  let (ys, h2) := map_from f rest (S index) h1 in (y :: ys, h2).
Proof.
  simpl. unfold mbind, M_bind. destruct (f x index h) as [y h1].
  by destruct (map_from f rest (S index) h1).
Qed.

Lemma progressReducer_old props state acc curr v h :
  State.progress state !! key curr = Some v ->
  Stack.progressReducer props state acc curr h = (<[key curr := v]> acc, h).
Proof. intros Hv. unfold Stack.progressReducer. by rewrite Hv. Qed.

Lemma progressReducer_new props state acc curr h :
  State.progress state !! key curr = None ->
  Stack.progressReducer props state acc curr h =
  (<[key curr := next_value h]> acc,
   {| next_value := S (next_value h);
      values :=
        <[next_value h := Stack.initialProgress props (key curr)]> (values h);
      next_object := next_object h |}).
Proof. intros Hv. unfold Stack.progressReducer. by rewrite Hv. Qed.

(** What the [reduce] over the routes does to the accumulator and to the
    heap: old values are carried over, a key without one gets a fresh value
    holding its seed, and nothing that existed is written. *)
Lemma reduce_progress props state :
  forall rs acc h acc' h',
    reduce (Stack.progressReducer props state) rs acc h = (acc', h') ->
    (next_value h <= next_value h')%nat /\
    next_object h' = next_object h /\
    (forall l, (l < next_value h)%nat -> values h' !! l = values h !! l) /\
    (forall K, K ∉ keys rs -> acc' !! K = acc !! K) /\
    (forall K v, K ∈ keys rs -> State.progress state !! K = Some v ->
                 acc' !! K = Some v) /\
    (forall K, K ∈ keys rs -> State.progress state !! K = None ->
       exists l, (next_value h <= l < next_value h')%nat /\
                 acc' !! K = Some l /\
                 values h' !! l = Some (Stack.initialProgress props K)).
Proof.
  induction rs as [| curr rest IH]; intros acc h acc' h' Hr.
  - inversion Hr; subst. repeat split; try done.
    + intros K v HK. by apply elem_of_nil in HK.
    + intros K HK. by apply elem_of_nil in HK.
  - rewrite reduce_cons in Hr.
    destruct (Stack.progressReducer props state acc curr h) as [acc1 h1] eqn:H1.
    destruct (IH _ _ _ _ Hr) as (Hle & Hob & Hfr & Hout & Hold & Hnew).
    destruct (State.progress state !! key curr) as [v0 |] eqn:Hp.
    + rewrite (progressReducer_old _ _ _ _ _ _ Hp) in H1.
      inversion H1; subst acc1 h1. repeat split; try done.
      * intros K HK. unfold keys in HK. simpl in HK.
        apply not_elem_of_cons in HK as [Hne HK].
        rewrite (Hout K HK). by rewrite lookup_insert_ne.
      * intros K v HK Hv. destruct (decide (K ∈ keys rest)) as [Hin | Hnin].
        { by apply Hold. }
        apply elem_of_cons in HK as [-> | HK]; [| done].
        rewrite (Hout _ Hnin), lookup_insert_eq. congruence.
      * intros K HK Hv. destruct (decide (K ∈ keys rest)) as [Hin | Hnin].
        { by apply Hnew. }
        apply elem_of_cons in HK as [-> | HK]; [| done]. congruence.
    + rewrite (progressReducer_new _ _ _ _ _ Hp) in H1.
      inversion H1; subst acc1 h1.
      cbn [next_value values next_object] in *. repeat split; try done.
      * lia.
      * intros l Hl. rewrite (Hfr l) by lia. apply lookup_insert_ne. lia.
      * intros K HK. unfold keys in HK. simpl in HK.
        apply not_elem_of_cons in HK as [Hne HK].
        rewrite (Hout K HK). by rewrite lookup_insert_ne.
      * intros K v HK Hv. destruct (decide (K ∈ keys rest)) as [Hin | Hnin].
        { by apply Hold. }
        apply elem_of_cons in HK as [-> | HK]; [| done]. congruence.
      * intros K HK Hv. destruct (decide (K ∈ keys rest)) as [Hin | Hnin].
        { destruct (Hnew K Hin Hv) as (l & Hl & Ha & Hs).
          exists l. split; [lia | done]. }
        apply elem_of_cons in HK as [-> | HK]; [| done].
        exists (next_value h). split; [lia |]. split.
        { etrans; [by apply Hout | apply lookup_insert_eq]. }
        rewrite (Hfr (next_value h)) by lia. apply lookup_insert_eq.
Qed.

Lemma sceneMapper_run props state progress self route index h :
  Stack.sceneMapper props state progress self route index h =
  (Stack.memoized (State.scenes state !! index)
     (Stack.newScene props state progress self route index (next_object h)),
   {| next_value := next_value h; values := values h;
      next_object := S (next_object h) |}).
Proof. reflexivity. Qed.

(** The [map] over the routes allocates one scene object per route and
    touches no animated value; its result at each index is the memoized
    scene of that index. *)
Lemma map_from_scenes props state progress self :
  forall rs start h scs h',
    map_from (Stack.sceneMapper props state progress self) rs start h
      = (scs, h') ->
    next_value h' = next_value h /\
    values h' = values h /\
    next_object h' = (next_object h + length rs)%nat /\
    length scs = length rs /\
    forall j r, rs !! j = Some r ->
      scs !! j =
      Some (Stack.memoized (State.scenes state !! (start + j)%nat)
              (Stack.newScene props state progress self r (start + j)
                 (next_object h + j))).
Proof.
  induction rs as [| x rest IH]; intros start h scs h' Hm.
  - inversion Hm; subst. repeat split; try done; simpl; lia.
  - rewrite map_from_cons, sceneMapper_run in Hm.
    destruct (map_from _ rest (S start) _) as [ys h2] eqn:Hrest.
    inversion Hm; subst scs h'. clear Hm.
    destruct (IH _ _ _ _ Hrest) as (Hv & Hvs & Hob & Hlen & Hall).
    cbn [next_value values next_object] in *.
    repeat split; try done.
    + simpl. lia.
    + simpl. by rewrite Hlen.
    + intros [| j] r Hj; simpl in Hj.
      * inversion Hj; subst. simpl. by rewrite !Nat.add_0_r.
      * simpl. rewrite (Hall j r Hj).
        replace (S start + j)%nat with (start + S j)%nat by lia.
        by replace (S (next_object h) + j)%nat
          with (next_object h + S j)%nat by lia.
Qed.

Lemma getDerivedStateFromProps_null I props state h :
  Stack.sameInputs props state = true ->
  Stack.getDerivedStateFromProps I props state h = (None, h).
Proof. intros Hs. unfold Stack.getDerivedStateFromProps. by rewrite Hs. Qed.

(** When the inputs changed, the derivation runs its two loops in turn. *)
Lemma getDerivedStateFromProps_some I props state h :
  Stack.sameInputs props state = false ->
  exists progress h1 scenes h2,
    reduce (Stack.progressReducer props state)
      (Routes.items (Props.routes props)) ∅ h = (progress, h1) /\
    map_from
      (Stack.sceneMapper props state progress
         (Routes.items (Props.routes props)))
      (Routes.items (Props.routes props)) 0 h1 = (scenes, h2) /\
    Stack.getDerivedStateFromProps I props state h =
    (Some
       {| StateUpdate.routes := Some (Props.routes props);
          StateUpdate.scenes := Some scenes;
          StateUpdate.progress := Some progress;
          StateUpdate.descriptors := Some (Props.descriptors props);
          StateUpdate.layout := None;
          StateUpdate.floatingHeaderHeights :=
            Some (getFloatingHeaderHeights I
                    (Routes.items (Props.routes props)) (Props.insets props)
                    (State.layout state) (State.floatingHeaderHeights state))
       |}, h2).
Proof.
  intros Hs. unfold Stack.getDerivedStateFromProps. rewrite Hs.
  unfold mbind, M_bind.
  destruct (reduce _ _ ∅ h) as [progress h1] eqn:Hr.
  destruct (map_from _ _ 0%nat h1) as [scenes h2] eqn:Hm.
  by exists progress, h1, scenes, h2.
Qed.

Lemma derive_null I props state h :
  Stack.sameInputs props state = true ->
  Stack.derive I props state h = (state, h).
Proof.
  intros Hs. unfold Stack.derive, mbind, M_bind.
  by rewrite getDerivedStateFromProps_null.
Qed.

Lemma derive_run I props state h :
  Stack.derive I props state h =
  let (u, h') := Stack.getDerivedStateFromProps I props state h in
  (match u with Some u => StateUpdate.merge state u | None => state end, h').
Proof.
  unfold Stack.derive, mbind, M_bind.
  by destruct (Stack.getDerivedStateFromProps I props state h).
Qed.

(** ** Progress values across derivations *)

Lemma derive_keeps_progress I props state h K v :
  State.progress state !! K = Some v ->
  K ∈ keys (Routes.items (Props.routes props)) ->
  State.progress (Stack.derive I props state h).1 !! K = Some v /\
  ((v < next_value h)%nat ->
   values (Stack.derive I props state h).2 !! v = values h !! v).
Proof.
  intros Hv HK. destruct (Stack.sameInputs props state) eqn:Hs.
  - by rewrite derive_null.
  - destruct (getDerivedStateFromProps_some I props state h Hs)
      as (progress & h1 & scenes & h2 & Hr & Hm & Hd).
    rewrite derive_run, Hd. cbn.
    destruct (reduce_progress _ _ _ _ _ _ _ Hr)
      as (_ & _ & Hfr & _ & Hold & _).
    destruct (map_from_scenes _ _ _ _ _ _ _ _ _ Hm) as (_ & Hvs & _).
    split; [by apply Hold |]. intros Hlt. rewrite Hvs. by apply Hfr.
Qed.

Lemma rederive_keeps_progress I props state h K v :
  State.progress state !! K = Some v ->
  K ∈ keys (Routes.items (Props.routes props)) ->
  State.progress (Component.state (rederive I props state h)) !! K = Some v /\
  Component.props (rederive I props state h) = props.
Proof.
  intros Hv HK. unfold rederive.
  pose proof (derive_keeps_progress I props state h K v Hv HK) as [Hp _].
  by destruct (Stack.derive I props state h).
Qed.

Lemma step_keeps_progress I c ev K v :
  State.progress (Component.state c) !! K = Some v ->
  K ∈ keys (Routes.items (Props.routes (Component.props c))) ->
  keeps K ev ->
  State.progress (Component.state (step I c ev)) !! K = Some v /\
  K ∈ keys (Routes.items (Props.routes (Component.props (step I c ev)))).
Proof.
  intros Hv HK Hev. destruct ev as [props' | e | route hgt | l x]; simpl.
  - destruct (rederive_keeps_progress I props' (Component.state c)
                (Component.heap c) K v Hv Hev) as [Hp Hprops].
    by rewrite Hprops.
  - destruct (Stack.handleLayout I _ _ e) as [u |] eqn:Hu; [| done].
    unfold Stack.handleLayout in Hu. case_match; [done |].
    inversion Hu; subst u; clear Hu.
    match goal with
    | |- context [rederive I ?p ?s ?h] =>
        destruct (rederive_keeps_progress I p s h K v) as [Hp Hprops];
        [done | done |]
    end.
    by rewrite Hprops.
  - destruct (Stack.handleFloatingHeaderLayout _ route hgt) as [f |] eqn:Hf;
      [| done].
    unfold Stack.handleFloatingHeaderLayout in Hf. case_match; [done |].
    inversion Hf; subst f; clear Hf.
    match goal with
    | |- context [rederive I ?p ?s ?h] =>
        destruct (rederive_keeps_progress I p s h K v) as [Hp Hprops];
        [done | done |]
    end.
    by rewrite Hprops.
  - done.
Qed.

(** C1. A route key that has a progress value in the previous state and is
    in the new route list keeps the very same value object (the same heap
    location, whose content the derivation does not write); and over any
    sequence of events in which every route list received has the key, the
    progress map holds that same object for the key at the end. *)
Theorem progress_continuity (I : Imports) (K : string) (v : loc) :
  (forall props state h,
     State.progress state !! K = Some v ->
     K ∈ keys (Routes.items (Props.routes props)) ->
     State.progress (Stack.derive I props state h).1 !! K = Some v /\
     ((v < next_value h)%nat ->
      values (Stack.derive I props state h).2 !! v = values h !! v)) /\
  (forall evs c,
     State.progress (Component.state c) !! K = Some v ->
     K ∈ keys (Routes.items (Props.routes (Component.props c))) ->
     Forall (keeps K) evs ->
     State.progress (Component.state (run I c evs)) !! K = Some v).
Proof.
  split.
  - intros props state h. apply derive_keeps_progress.
  - induction evs as [| ev evs IH]; intros c Hv HK Hall; [done |].
    apply Forall_cons in Hall as [Hev Hall].
    destruct (step_keeps_progress I c ev K v Hv HK Hev) as [Hv' HK'].
    simpl. by apply IH.
Qed.

Lemma progress_continuity_witness :
  State.progress
    (Component.state
       (run (Sample.imports "ios") (Sample.mounted "ios" Sample.props1)
          [Receive Sample.props2; Animate 1 (Q2Qc (1 # 2));
           ContainerLayout Sample.landscape;
           FloatingHeaderLayout Sample.A (Q2Qc 50);
           Receive Sample.props3])) !! "A" = Some 1%nat.
Proof.
  apply (proj2 (progress_continuity (Sample.imports "ios") "A" 1%nat)).
  - reflexivity.
  - has_key.
  - repeat constructor; has_key.
Defined.

(** ** The seed of a new progress value *)

(** C2 (as amended). A route key that is not a property name of
    [Object.prototype] and has no progress value in the previous state gets
    a newly allocated one; it holds 0 when the key is among the opening keys
    and the new descriptor map has a descriptor for it whose
    [animationEnabled] is not [false], and 1 otherwise, in particular
    whenever the map has no descriptor for the key. *)
Theorem seed_of_new_key (I : Imports) (props : Props.t) (state : State.t)
    (h : Heap) (K : string) :
  Stack.sameInputs props state = false ->
  State.progress state !! K = None ->
  K ∈ keys (Routes.items (Props.routes props)) ->
  plainKey K = true ->
  exists l : loc,
    (next_value h <= l)%nat /\
    State.progress (Stack.derive I props state h).1 !! K = Some l /\
    values (Stack.derive I props state h).2 !! l =
    Some match SceneDescriptorMap.entries (Props.descriptors props) !! K with
         | Some d =>
             if bool_decide (K ∈ Props.openingRoutesKeys props)
                && not_false (Options.animationEnabled (Descriptor.options d))
             then 0%Qc else 1%Qc
         | None => 1%Qc
         end.
Proof.
  intros Hs Hnone HK _.
  destruct (getDerivedStateFromProps_some I props state h Hs)
    as (progress & h1 & scenes & h2 & Hr & Hm & Hd).
  rewrite derive_run, Hd. cbn.
  destruct (reduce_progress _ _ _ _ _ _ _ Hr) as (_ & _ & _ & _ & _ & Hnew).
  destruct (map_from_scenes _ _ _ _ _ _ _ _ _ Hm) as (_ & Hvs & _).
  destruct (Hnew K HK Hnone) as (l & Hl & Hp & Hval).
  exists l. split; [lia |]. split; [done |]. rewrite Hvs, Hval.
  unfold Stack.initialProgress. f_equal.
  destruct (SceneDescriptorMap.entries (Props.descriptors props) !! K);
    [done |].
  by rewrite andb_false_r.
Qed.

Lemma seed_of_new_key_witness :
  exists l : loc,
    (1 <= l)%nat /\
    State.progress
      (Stack.derive (Sample.imports "ios") Sample.props2
         (Component.state (Sample.mounted "ios" Sample.props1))
         (Component.heap (Sample.mounted "ios" Sample.props1))).1 !! "C"
    = Some l /\
    values
      (Stack.derive (Sample.imports "ios") Sample.props2
         (Component.state (Sample.mounted "ios" Sample.props1))
         (Component.heap (Sample.mounted "ios" Sample.props1))).2 !! l
    = Some 0%Qc.
Proof.
  destruct (seed_of_new_key (Sample.imports "ios") Sample.props2
              (Component.state (Sample.mounted "ios" Sample.props1))
              (Component.heap (Sample.mounted "ios" Sample.props1)) "C")
    as (l & Hl & Hp & Hv).
  - reflexivity.
  - reflexivity.
  - has_key.
  - reflexivity.
  - exists l. split; [| split; [exact Hp | exact Hv]].
    vm_compute in Hl. exact (Nat.le_trans _ _ _ (le_S _ _ (le_n 1)) Hl).
Defined.

(** The wording of C2 fails for a key that opens while the descriptor map
    has no descriptor for it: route D of [Sample.props4] is seeded with 1,
    where the wording gives 0. *)
Lemma seed_without_descriptor :
  ~ (forall (I : Imports) (props : Props.t) (state : State.t) (h : Heap)
            (K : string),
       Stack.sameInputs props state = false ->
       State.progress state !! K = None ->
       K ∈ keys (Routes.items (Props.routes props)) ->
       exists l : loc,
         State.progress (Stack.derive I props state h).1 !! K = Some l /\
         values (Stack.derive I props state h).2 !! l =
         Some (specifiedSeed props K)).
Proof.
  intros Hclaim.
  destruct (Hclaim (Sample.imports "ios") Sample.props4
              (Component.state (Sample.mounted "ios" Sample.props1))
              (Component.heap (Sample.mounted "ios" Sample.props1)) "D")
    as (l & Hp & Hv).
  - reflexivity.
  - reflexivity.
  - has_key.
  - vm_compute in Hp. inversion Hp; subst l. vm_compute in Hv. discriminate.
Qed.

(** ** What [render] emits *)

(** A render that completes has a focused route and one screen per route,
    each the result of the [map] callback at its index. *)
Lemma render_inv I props state out :
  Stack.render I props state = Normal out ->
  exists focusedRoute,
    NavigationState.routes (Props.navigation props)
      !! NavigationState.index (Props.navigation props) = Some focusedRoute /\
    length (Rendered.screens out) = length (Routes.items (Props.routes props)) /\
    (forall i r, Routes.items (Props.routes props) !! i = Some r ->
       exists m, Rendered.screens out !! i = Some m /\
         Stack.renderRoute I props state focusedRoute
           (Routes.items (Props.routes props)) r i = Normal m) /\
    Rendered.floatingHeader out =
      if String.eqb (Props.headerMode props) "float" then
        Some {| HeaderContainer.mode := "float";
                HeaderContainer.layout := State.layout state;
                HeaderContainer.scenes := State.scenes state;
                HeaderContainer.styleInterpolator :=
                  match Options.headerStyleInterpolator
                          (Stack.optionsOf
                             (SceneDescriptorMap.entries (Props.descriptors props)
                                !! key focusedRoute)) with
                  | Some f => f
                  | None =>
                      TransitionPreset.headerStyleInterpolator
                        (Stack.defaultTransitionPreset I props)
                  end |}
      else None.
Proof.
  unfold Stack.render. intros Hr.
  destruct (NavigationState.routes _ !! _) as [focusedRoute |]; [| discriminate].
  destruct (map_throw _ _ 0%nat) as [screens |] eqn:Hm; [| discriminate].
  inversion Hr; subst out; clear Hr. exists focusedRoute.
  destruct (map_throw_lookup _ _ _ _ Hm) as [Hlen Hall].
  repeat split; try done.
Qed.

(** The screen emitted at an index, with the route and the scene it was
    made from. *)
Lemma render_screen I props state out i m :
  Stack.render I props state = Normal out ->
  Rendered.screens out !! i = Some m ->
  exists focusedRoute r scene,
    Routes.items (Props.routes props) !! i = Some r /\
    State.scenes state !! i = Some scene /\
    Stack.renderRoute I props state focusedRoute
      (Routes.items (Props.routes props)) r i = Normal m.
Proof.
  intros Hr Hm. destruct (render_inv _ _ _ _ Hr) as (f & _ & Hlen & Hall & _).
  assert (is_Some (Routes.items (Props.routes props) !! i)) as [r Hi].
  { apply lookup_lt_is_Some. rewrite <- Hlen. by eapply lookup_lt_Some. }
  destruct (Hall i r Hi) as (m' & Hm' & Hrr).
  assert (m' = m) as -> by congruence.
  exists f, r. unfold Stack.renderRoute in Hrr |- *.
  destruct (State.scenes state !! i) as [scene |]; [| discriminate].
  by exists scene.
Qed.

Lemma index_is_last (i n : nat) :
  (Z.of_nat i =? Z.of_nat n - 1)%Z = bool_decide (S i = n).
Proof.
  destruct (Z.eqb_spec (Z.of_nat i) (Z.of_nat n - 1));
    case_bool_decide; try done; lia.
Qed.

Lemma index_is_second_last (i n : nat) :
  (Z.of_nat i =? Z.of_nat n - 2)%Z = bool_decide (S (S i) = n).
Proof.
  destruct (Z.eqb_spec (Z.of_nat i) (Z.of_nat n - 2));
    case_bool_decide; try done; lia.
Qed.

(** C3. For a scene that is not the last and has a next scene, the
    transition spec and the card and header interpolators emitted are the
    ones resolved from the next scene's options (an unset option giving the
    default preset's value), not the scene's own, while the gesture
    direction, response distance and velocity impact are the scene's own. *)
Theorem lookahead_override (I : Imports) (props : Props.t) (state : State.t)
    (out : Rendered.t) (i : nat) (m : MaybeScreen.props)
    (scene nextScene : Scene.t) :
  Stack.render I props state = Normal out ->
  Rendered.screens out !! i = Some m ->
  S i <> length (Routes.items (Props.routes props)) ->
  State.scenes state !! i = Some scene ->
  State.scenes state !! S i = Some nextScene ->
  let preset := Stack.defaultTransitionPreset I props in
  let own := Stack.optionsOf (Scene.descriptor scene) in
  let following := Stack.optionsOf (Scene.descriptor nextScene) in
  let item := MaybeScreen.children m in
  StackItem.transitionSpec item =
    or_default (Options.transitionSpec following)
      (TransitionPreset.transitionSpec preset) /\
  StackItem.cardStyleInterpolator item =
    or_default (Options.cardStyleInterpolator following)
      (TransitionPreset.cardStyleInterpolator preset) /\
  StackItem.headerStyleInterpolator item =
    or_default (Options.headerStyleInterpolator following)
      (TransitionPreset.headerStyleInterpolator preset) /\
  StackItem.gestureDirection item =
    or_default (Options.gestureDirection own)
      (TransitionPreset.gestureDirection preset) /\
  StackItem.gestureResponseDistance item =
    Options.gestureResponseDistance own /\
  StackItem.gestureVelocityImpact item = Options.gestureVelocityImpact own.
Proof.
  intros Hr Hm Hlast Hscene Hnext.
  destruct (render_screen _ _ _ _ _ _ Hr Hm) as (f & r & sc & Hi & Hsc & Hrr).
  unfold Stack.renderRoute in Hrr. rewrite Hscene in Hrr. validated Hrr.
  replace (i + 1)%nat with (S i) in Hrr by lia.
  rewrite Hnext, index_is_last in Hrr.
  rewrite bool_decide_eq_false_2 in Hrr by done.
  inversion Hrr; subst m; clear Hrr. by cbn.
Qed.

Lemma lookahead_override_witness :
  exists m,
    (Stack.render (Sample.imports "ios") Sample.props2
       (Component.state (Sample.mounted "ios" Sample.props2)))
    = Normal m /\
    exists s,
      Rendered.screens m !! 1%nat = Some s /\
      StackItem.transitionSpec (MaybeScreen.children s) = 51%nat /\
      StackItem.cardStyleInterpolator (MaybeScreen.children s) = 12%nat /\
      StackItem.headerStyleInterpolator (MaybeScreen.children s) = 53%nat /\
      StackItem.gestureDirection (MaybeScreen.children s) = 44%nat /\
      StackItem.gestureResponseDistance (MaybeScreen.children s) = Some 45%nat /\
      StackItem.gestureVelocityImpact (MaybeScreen.children s) = Some (Q2Qc 4).
Proof.
  destruct (Stack.render (Sample.imports "ios") Sample.props2
              (Component.state (Sample.mounted "ios" Sample.props2)))
    as [out |] eqn:Hout; [| vm_compute in Hout; discriminate].
  exists out. split; [reflexivity |].
  destruct (Rendered.screens out !! 1%nat) as [s |] eqn:Hs.
  - exists s. split; [reflexivity |].
    assert (State.scenes (Component.state (Sample.mounted "ios" Sample.props2))
              !! 1%nat <> None) as H1 by (vm_compute; discriminate).
    assert (State.scenes (Component.state (Sample.mounted "ios" Sample.props2))
              !! 2%nat <> None) as H2 by (vm_compute; discriminate).
    destruct (State.scenes _ !! 1%nat) as [sc |] eqn:Hsc; [| done].
    destruct (State.scenes _ !! 2%nat) as [nsc |] eqn:Hnsc; [| done].
    pose proof (lookahead_override (Sample.imports "ios") Sample.props2 _
                  out 1 s sc nsc Hout Hs ltac:(vm_compute; discriminate)
                  Hsc Hnsc) as Hthm.
    vm_compute in Hsc, Hnsc.
    inversion Hsc; subst sc. inversion Hnsc; subst nsc. exact Hthm.
  - exfalso. vm_compute in Hout. inversion Hout; subst out.
    vm_compute in Hs. discriminate.
Defined.

(** ** Activation *)

Lemma render_active I props state out i m :
  Stack.render I props state = Normal out ->
  Rendered.screens out !! i = Some m ->
  MaybeScreen.active m =
  Stack.isScreenActive I (Routes.items (Props.routes props)) i
    (Stack.nextProgress (State.progress state)
       (Routes.items (Props.routes props)) i).
Proof.
  intros Hr Hm.
  destruct (render_screen _ _ _ _ _ _ Hr Hm) as (f & r & sc & Hi & Hsc & Hrr).
  unfold Stack.renderRoute in Hrr. rewrite Hsc in Hrr. validated Hrr.
  by inversion Hrr.
Qed.

(** The conditional node of the platform that recycles views: 0 once the
    value is 1, and 1 as long as it is anything else. *)
Lemma eval_active_condition (vs : gmap loc Qc) (v : loc) (x : Qc) :
  vs !! v = Some x ->
  eval vs (Cond (Eq (Val v) (Num 1%Qc)) (Num 0%Qc) (Num 1%Qc)) =
  Some (if decide (x = 1%Qc) then 0%Qc else 1%Qc).
Proof.
  intros Hx. simpl. rewrite Hx.
  destruct (number_eqb x 1) eqn:He.
  - apply number_eqb_eq in He. by rewrite decide_True.
  - apply number_eqb_neq in He. by rewrite decide_False.
Qed.

(** C5. The screen of the last route is given the constant 1. On a platform
    other than Android (no native view recycling) the screen before the last
    is given 1 too and every lower one 0. On Android every screen below the
    top is given a conditional on the progress value of the next route, which
    evaluates to 1 while that value is not 1 and to 0 once it is 1. *)
Theorem activation_policy (I : Imports) (props : Props.t) (state : State.t)
    (out : Rendered.t) :
  Stack.render I props state = Normal out ->
  let routes := Routes.items (Props.routes props) in
  (forall i m, Rendered.screens out !! i = Some m -> S i = length routes ->
     MaybeScreen.active m = Num 1%Qc) /\
  (Platform_OS I <> "android" ->
   forall i m, Rendered.screens out !! i = Some m ->
     (S (S i) = length routes -> MaybeScreen.active m = Num 1%Qc) /\
     (S (S i) < length routes -> MaybeScreen.active m = Num 0%Qc)) /\
  (Platform_OS I = "android" ->
   forall i m r v, Rendered.screens out !! i = Some m ->
     S i < length routes ->
     routes !! S i = Some r ->
     State.progress state !! key r = Some v ->
     MaybeScreen.active m = Cond (Eq (Val v) (Num 1%Qc)) (Num 0%Qc) (Num 1%Qc) /\
     forall (vs : gmap loc Qc) (x : Qc), vs !! v = Some x ->
       eval vs (MaybeScreen.active m) =
       Some (if decide (x = 1%Qc) then 0%Qc else 1%Qc)).
Proof.
  intros Hr routes.
  assert (Hact : forall i m, Rendered.screens out !! i = Some m ->
            MaybeScreen.active m =
            Stack.isScreenActive I routes i
              (Stack.nextProgress (State.progress state) routes i))
    by (intros i m Hm; exact (render_active _ _ _ _ _ _ Hr Hm)).
  split; [| split].
  - intros i m Hm Hlast. rewrite (Hact i m Hm).
    unfold Stack.isScreenActive. rewrite index_is_last.
    by rewrite bool_decide_eq_true_2.
  - intros Hos i m Hm. apply String.eqb_neq in Hos.
    rewrite (Hact i m Hm). unfold Stack.isScreenActive.
    rewrite index_is_last, index_is_second_last, Hos. split.
    + intros Hsecond. rewrite bool_decide_eq_false_2 by lia.
      by rewrite bool_decide_eq_true_2.
    + intros Hlow. rewrite bool_decide_eq_false_2 by lia.
      by rewrite bool_decide_eq_false_2 by lia.
  - intros Hos i m r v Hm Hbelow Hnext Hv. apply String.eqb_eq in Hos.
    assert (MaybeScreen.active m =
            Cond (Eq (Val v) (Num 1%Qc)) (Num 0%Qc) (Num 1%Qc)) as Hnode.
    { rewrite (Hact i m Hm). unfold Stack.isScreenActive, Stack.nextProgress.
      rewrite index_is_last, Hos. rewrite bool_decide_eq_false_2 by lia.
      replace (i + 1)%nat with (S i) by lia. by rewrite Hnext, Hv. }
    split; [done |]. intros vs x Hx. rewrite Hnode.
    by apply eval_active_condition.
Qed.

Lemma activation_policy_witness :
  (exists out,
     Stack.render (Sample.imports "ios") Sample.props5
       (Component.state (Sample.mounted "ios" Sample.props5)) = Normal out /\
     MaybeScreen.active <$> Rendered.screens out =
     [Num 0%Qc; Num 0%Qc; Num 1%Qc; Num 1%Qc]) /\
  (exists out m,
     Stack.render (Sample.imports "android") Sample.props5
       (Component.state (Sample.mounted "android" Sample.props5)) = Normal out /\
     Rendered.screens out !! 0%nat = Some m /\
     eval (values (Component.heap (Sample.mounted "android" Sample.props5)))
       (MaybeScreen.active m) = Some 0%Qc /\
     eval (<[2%nat := Q2Qc (1 # 2)]>
             (values (Component.heap (Sample.mounted "android" Sample.props5))))
       (MaybeScreen.active m) = Some 1%Qc).
Proof.
  split.
  - destruct (Stack.render (Sample.imports "ios") Sample.props5
                (Component.state (Sample.mounted "ios" Sample.props5)))
      as [out |] eqn:Hout; [| vm_compute in Hout; discriminate].
    exists out. split; [reflexivity |].
    destruct (activation_policy _ _ _ _ Hout) as (Htop & Hother & _).
    assert (length (Rendered.screens out) = 4%nat) as Hlen
      by (vm_compute in Hout; by inversion Hout).
    destruct (Rendered.screens out) as [| m0 [| m1 [| m2 [| m3 [| ? ?]]]]];
      try discriminate Hlen.
    simpl. f_equal; [| f_equal; [| f_equal; [| f_equal]]].
    + apply (Hother ltac:(vm_compute; discriminate) 0%nat m0 eq_refl).
      vm_compute. lia.
    + apply (Hother ltac:(vm_compute; discriminate) 1%nat m1 eq_refl).
      vm_compute. lia.
    + apply (Hother ltac:(vm_compute; discriminate) 2%nat m2 eq_refl).
      reflexivity.
    + apply (Htop 3%nat m3 eq_refl). reflexivity.
  - destruct (Stack.render (Sample.imports "android") Sample.props5
                (Component.state (Sample.mounted "android" Sample.props5)))
      as [out |] eqn:Hout; [| vm_compute in Hout; discriminate].
    destruct (Rendered.screens out !! 0%nat) as [m |] eqn:Hm;
      [| vm_compute in Hout; inversion Hout; subst out; discriminate Hm].
    exists out, m. split; [reflexivity |]. split; [exact Hm |].
    destruct (activation_policy _ _ _ _ Hout) as (_ & _ & Handroid).
    destruct (Handroid eq_refl 0%nat m Sample.B 2%nat Hm
                ltac:(vm_compute; lia) eq_refl eq_refl) as [_ Heval].
    split.
    + erewrite Heval by reflexivity. reflexivity.
    + erewrite Heval by reflexivity. reflexivity.
Defined.

(** ** The floating header *)

(** C9. With the header mode ['float'] the render carries one floating
    header request, beside the per-route screens; its style interpolator is
    the [headerStyleInterpolator] option of the focused route's descriptor
    when that is set, and the header interpolator of the preset of the mode
    when the focused route has no descriptor or leaves the option unset.
    With any other header mode there is no floating header. *)
Theorem floating_header (I : Imports) (props : Props.t) (state : State.t)
    (out : Rendered.t) :
  Stack.render I props state = Normal out ->
  let modePreset :=
    match Props.mode props with
    | modal => ModalTransition I
    | card => DefaultTransition I
    end in
  (Props.headerMode props = "float" ->
   exists focusedRoute header,
     NavigationState.routes (Props.navigation props)
       !! NavigationState.index (Props.navigation props) = Some focusedRoute /\
     Rendered.floatingHeader out = Some header /\
     HeaderContainer.styleInterpolator header =
       match SceneDescriptorMap.entries (Props.descriptors props)
               !! key focusedRoute with
       | Some d =>
           match Options.headerStyleInterpolator (Descriptor.options d) with
           | Some f => f
           | None => TransitionPreset.headerStyleInterpolator modePreset
           end
       | None => TransitionPreset.headerStyleInterpolator modePreset
       end) /\
  (Props.headerMode props <> "float" -> Rendered.floatingHeader out = None).
Proof.
  intros Hr modePreset.
  destruct (render_inv _ _ _ _ Hr) as (f & Hf & _ & _ & Hh).
  split.
  - intros Hfloat. rewrite Hfloat in Hh. simpl in Hh.
    eexists f, _. split; [done |]. split; [exact Hh |]. cbn.
    unfold Stack.defaultTransitionPreset. rewrite Hfloat. simpl.
    by destruct (SceneDescriptorMap.entries (Props.descriptors props) !! key f).
  - intros Hother. apply String.eqb_neq in Hother. by rewrite Hother in Hh.
Qed.

Lemma floating_header_witness :
  exists out header,
    Stack.render (Sample.imports "ios") Sample.props2
      (Component.state (Sample.mounted "ios" Sample.props2)) = Normal out /\
    Rendered.floatingHeader out = Some header /\
    HeaderContainer.styleInterpolator header = 53%nat.
Proof.
  destruct (Stack.render (Sample.imports "ios") Sample.props2
              (Component.state (Sample.mounted "ios" Sample.props2)))
    as [out |] eqn:Hout; [| vm_compute in Hout; discriminate].
  destruct (floating_header _ _ _ _ Hout) as [Hfloat _].
  destruct (Hfloat eq_refl) as (f & header & Hf & Hh & Hs).
  exists out, header. split; [reflexivity |]. split; [exact Hh |].
  vm_compute in Hf. inversion Hf; subst f. exact Hs.
Defined.

(** ** Gestures *)

(** C10. The screen of index 0 is emitted with gestures disabled whatever
    its options and whatever the callback answers; a screen of a higher
    index is emitted with the callback's answer for its route. *)
Theorem first_screen_has_no_gesture (I : Imports) (props : Props.t)
    (state : State.t) (out : Rendered.t) :
  Stack.render I props state = Normal out ->
  (forall m, Rendered.screens out !! 0%nat = Some m ->
     StackItem.gestureEnabled (MaybeScreen.children m) = false) /\
  (forall i m r, Rendered.screens out !! S i = Some m ->
     Routes.items (Props.routes props) !! S i = Some r ->
     StackItem.gestureEnabled (MaybeScreen.children m) =
     Props.getGesturesEnabled props r).
Proof.
  intros Hr. split.
  - intros m Hm.
    destruct (render_screen _ _ _ _ _ _ Hr Hm) as (f & r & sc & Hi & Hsc & Hrr).
    unfold Stack.renderRoute in Hrr. rewrite Hsc in Hrr. validated Hrr.
    by inversion Hrr.
  - intros i m r Hm Hi.
    destruct (render_screen _ _ _ _ _ _ Hr Hm)
      as (f & r' & sc & Hi' & Hsc & Hrr).
    assert (r' = r) as -> by congruence.
    unfold Stack.renderRoute in Hrr. rewrite Hsc in Hrr. validated Hrr.
    by inversion Hrr.
Qed.

Lemma first_screen_has_no_gesture_witness :
  exists out,
    Stack.render (Sample.imports "ios") Sample.props2
      (Component.state (Sample.mounted "ios" Sample.props2)) = Normal out /\
    (StackItem.gestureEnabled ∘ MaybeScreen.children) <$> Rendered.screens out
    = [false; true; true].
Proof.
  destruct (Stack.render (Sample.imports "ios") Sample.props2
              (Component.state (Sample.mounted "ios" Sample.props2)))
    as [out |] eqn:Hout; [| vm_compute in Hout; discriminate].
  exists out. split; [reflexivity |].
  destruct (first_screen_has_no_gesture _ _ _ _ Hout) as [Hfirst Hrest].
  assert (length (Rendered.screens out) = 3%nat) as Hlen
    by (vm_compute in Hout; by inversion Hout).
  destruct (Rendered.screens out) as [| m0 [| m1 [| m2 [| ? ?]]]];
    try discriminate Hlen.
  simpl. f_equal; [| f_equal; [| f_equal]].
  - exact (Hfirst m0 eq_refl).
  - exact (Hrest 0%nat m1 Sample.B eq_refl eq_refl).
  - exact (Hrest 1%nat m2 Sample.C eq_refl eq_refl).
Defined.

(** ** Header heights *)

Lemma fold_heights_lookup (previous : gmap string Qc) (d : Qc) (k : string) :
  forall (routes : list NavigationRoute) (acc : gmap string Qc),
    fold_left
      (fun acc curr => <[key curr := number_or (previous !! key curr) d]> acc)
      routes acc !! k =
    if decide (k ∈ keys routes) then Some (number_or (previous !! k) d)
    else acc !! k.
Proof.
  induction routes as [| curr rest IH]; intros acc; cbn [fold_left].
  - destruct (decide (k ∈ keys [])) as [Hin | _]; [| done].
    by apply elem_of_nil in Hin.
  - rewrite IH. change (keys (curr :: rest)) with (key curr :: keys rest).
    destruct (decide (k ∈ keys rest)) as [Hin | Hnin].
    + rewrite decide_True; [done | by apply elem_of_cons; right].
    + destruct (decide (k = key curr)) as [-> | Hne].
      * rewrite decide_True by (apply elem_of_cons; by left).
        apply lookup_insert_eq.
      * rewrite decide_False.
        { by apply lookup_insert_ne. }
        intros [? | ?]%elem_of_cons; done.
Qed.

(** Each route gets its previous height when that is a non-zero number and
    the default height otherwise; other keys get nothing. *)
Lemma getFloatingHeaderHeights_lookup I routes insets layout previous k :
  getFloatingHeaderHeights I routes insets layout previous !! k =
  if decide (k ∈ keys routes)
  then Some (number_or (previous !! k) (getDefaultHeaderHeight I layout insets))
  else None.
Proof.
  unfold getFloatingHeaderHeights. rewrite fold_heights_lookup.
  by destruct (decide (k ∈ keys routes)).
Qed.

(** The default height is one of four constants plus the top inset. *)
Lemma getDefaultHeaderHeight_cases I layout insets :
  exists base : Qc,
    (base = Q2Qc 32 \/ base = Q2Qc 44 \/ base = Q2Qc 56 \/ base = Q2Qc 64) /\
    getDefaultHeaderHeight I layout insets =
    (base + match insets with Some i => top i | None => 0 end)%Qc.
Proof.
  unfold getDefaultHeaderHeight.
  destruct (String.eqb (Platform_OS I) "ios");
    [destruct (Qc_ltb (height layout) (width layout) && negb (Platform_isPad I))
    | destruct (String.eqb (Platform_OS I) "android")];
    eexists; (split; [| reflexivity]); auto.
Qed.

(** C6 (as amended). A height [H] reported for the route key [K] either
    leaves the state alone or sets the entry of [K] to [H] in the header
    height map and changes nothing else, neither another key's entry nor
    another field of the state; and when the previous entry of [K] is a
    non-zero number equal to [H], no update is issued. *)
Theorem header_height_report (this : State.t) (route : NavigationRoute)
    (H : Qc) :
  (forall f, Stack.handleFloatingHeaderLayout this route H = Some f ->
     forall state,
       let state' := StateUpdate.merge state (f state) in
       State.floatingHeaderHeights state' =
         <[key route := H]> (State.floatingHeaderHeights state) /\
       State.floatingHeaderHeights state' !! key route = Some H /\
       (forall k, k <> key route ->
          State.floatingHeaderHeights state' !! k =
          State.floatingHeaderHeights state !! k) /\
       State.routes state' = State.routes state /\
       State.descriptors state' = State.descriptors state /\
       State.scenes state' = State.scenes state /\
       State.progress state' = State.progress state /\
       State.layout state' = State.layout state) /\
  (State.floatingHeaderHeights this !! key route = Some H -> H <> 0%Qc ->
   Stack.handleFloatingHeaderLayout this route H = None).
Proof.
  split.
  - intros f Hf state. unfold Stack.handleFloatingHeaderLayout in Hf.
    case_match; [discriminate |]. inversion Hf; subst f; clear Hf. cbn.
    repeat split; try done.
    + apply lookup_insert_eq.
    + intros k Hk. by apply lookup_insert_ne.
  - intros Hprev Hnz. unfold Stack.handleFloatingHeaderLayout.
    rewrite Hprev. apply number_truthy_nonzero in Hnz.
    by rewrite Hnz, number_eqb_refl.
Qed.

Lemma header_height_report_witness :
  Stack.handleFloatingHeaderLayout
    (Component.state (Sample.mounted "ios" Sample.props2)) Sample.B (Q2Qc 64)
  = None /\
  exists f,
    Stack.handleFloatingHeaderLayout
      (Component.state (Sample.mounted "ios" Sample.props2)) Sample.B (Q2Qc 70)
    = Some f /\
    let state := Component.state (Sample.mounted "ios" Sample.props2) in
    State.floatingHeaderHeights (StateUpdate.merge state (f state)) !! "B"
    = Some (Q2Qc 70) /\
    State.floatingHeaderHeights (StateUpdate.merge state (f state)) !! "A"
    = Some (Q2Qc 64).
Proof.
  split.
  - apply (proj2 (header_height_report _ Sample.B (Q2Qc 64))).
    + reflexivity.
    + discriminate.
  - destruct (Stack.handleFloatingHeaderLayout
                (Component.state (Sample.mounted "ios" Sample.props2))
                Sample.B (Q2Qc 70)) as [f |] eqn:Hf;
      [| vm_compute in Hf; discriminate].
    exists f. split; [reflexivity |].
    destruct (proj1 (header_height_report _ Sample.B (Q2Qc 70)) f Hf
                (Component.state (Sample.mounted "ios" Sample.props2)))
      as (_ & HB & Hother & _).
    split; [exact HB |].
    rewrite (Hother "A") by discriminate. reflexivity.
Defined.

(** The wording of C6 says that no update occurs whenever the previous
    entry equals the reported height. A previous entry of 0 is falsy: the
    same height 0 reported again still issues an update. *)
Lemma zero_height_reported_again :
  ~ (forall (this : State.t) (route : NavigationRoute) (H : Qc),
       State.floatingHeaderHeights this !! key route = Some H ->
       Stack.handleFloatingHeaderLayout this route H = None).
Proof.
  intros Hclaim.
  specialize (Hclaim
    {| State.routes := Routes.mk 1 [Sample.A];
       State.descriptors := SceneDescriptorMap.mk 1 ∅;
       State.scenes := [];
       State.progress := ∅;
       State.layout := Sample.window;
       State.floatingHeaderHeights := {[ "A" := 0%Qc ]} |}
    Sample.A 0%Qc eq_refl).
  vm_compute in Hclaim. discriminate.
Qed.



(** *** Keys that are property names of [Object.prototype] *)

Lemma plainKey_not_proto (k : string) :
  plainKey k = true -> String.eqb k "__proto__" = false.
Proof.
  intros Hk. destruct (String.eqb_spec k "__proto__") as [-> | Hne]; [| done].
  vm_compute in Hk. discriminate.
Qed.

Lemma PlainObject_get_plain {A : Type} (o : gmap string A) (k : string) :
  plainKey k = true ->
  PlainObject.get (PlainObject.Data <$> o) k = PlainObject.Data <$> o !! k.
Proof.
  intros Hk. unfold PlainObject.get. rewrite lookup_fmap.
  destruct (o !! k); [done |]. cbn. by rewrite Hk.
Qed.

Lemma PlainObject_or_number (a : option Qc) (d : Qc) :
  PlainObject.or_number (PlainObject.Data <$> a) d
  = PlainObject.Data (number_or a d).
Proof.
  destruct a as [x |]; [| done]. cbn. by destruct (number_truthy x).
Qed.

(** On route keys that are not property names of [Object.prototype], the
    heights computed on plain objects are the own properties that
    [getFloatingHeaderHeights] computes on finite maps. *)
Lemma getFloatingHeaderHeights_plain (I : Imports)
    (routes : list NavigationRoute) (insets : option EdgeInsets)
    (layout : Layout) (previous : gmap string Qc) :
  forallb plainKey (keys routes) = true ->
  PlainObject.getFloatingHeaderHeights I routes insets layout
    (PlainObject.Data <$> previous)
  = PlainObject.Data <$> getFloatingHeaderHeights I routes insets layout previous.
Proof.
  unfold PlainObject.getFloatingHeaderHeights, getFloatingHeaderHeights.
  intros Hplain.
  rewrite <- (fmap_empty (M := gmap string) PlainObject.Data) at 1.
  generalize (∅ : gmap string Qc) as acc. revert Hplain.
  induction routes as [| curr rest IH]; intros Hplain acc; [done |].
  cbn in Hplain. apply andb_prop in Hplain as [Hcurr Hrest].
  cbn [fold_left]. rewrite <- (IH Hrest). f_equal.
  unfold PlainObject.set. rewrite (plainKey_not_proto _ Hcurr).
  rewrite (PlainObject_get_plain previous _ Hcurr), PlainObject_or_number.
  by rewrite fmap_insert.
Qed.

Lemma PlainObject_fold_lookup (previous : gmap string (PlainObject.value Qc))
    (d : Qc) (k : string) :
  forall (routes : list NavigationRoute)
         (acc : gmap string (PlainObject.value Qc)),
    fold_left
      (fun acc curr =>
         PlainObject.set acc (key curr)
           (PlainObject.or_number (PlainObject.get previous (key curr)) d))
      routes acc !! k =
    if decide (k ∈ keys routes)
    then if String.eqb k "__proto__" then acc !! k
         else Some (PlainObject.or_number (PlainObject.get previous k) d)
    else acc !! k.
Proof.
  induction routes as [| curr rest IH]; intros acc; cbn [fold_left].
  - destruct (decide (k ∈ keys [])) as [Hin | _]; [| done].
    by apply elem_of_nil in Hin.
  - rewrite IH. change (keys (curr :: rest)) with (key curr :: keys rest).
    unfold PlainObject.set.
    destruct (decide (k = key curr)) as [-> | Hne].
    + rewrite (decide_True (P := key curr ∈ key curr :: keys rest))
        by (apply elem_of_cons; by left).
      destruct (String.eqb (key curr) "__proto__") eqn:Hproto.
      * by destruct (decide (key curr ∈ keys rest)).
      * destruct (decide (key curr ∈ keys rest)); [done |].
        apply lookup_insert_eq.
    + assert (Hacc : (if String.eqb (key curr) "__proto__" then acc
                      else <[key curr :=
                             PlainObject.or_number
                               (PlainObject.get previous (key curr)) d]> acc)
                     !! k = acc !! k).
      { destruct (String.eqb (key curr) "__proto__"); [done |].
        by apply lookup_insert_ne. }
      rewrite Hacc.
      destruct (decide (k ∈ keys rest)) as [Hin | Hnin].
      * rewrite decide_True; [done | by apply elem_of_cons; right].
      * rewrite decide_False; [done |].
        intros [? | ?]%elem_of_cons; done.
Qed.

(** X23. What [handleLayout] stores for the routes when the dimensions
    change, on plain objects: reading the entry of a route key gives the
    default height for the new layout and the top inset when the key is not
    a property name of [Object.prototype]; when it is one, as
    ['constructor'], it gives the member of [Object.prototype] of that
    name, which is not a height. *)
Theorem layout_change_inherited_key (I : Imports) (props : Props.t)
    (state : State.t) (e : Layout) :
  height e <> height (State.layout state)
  \/ width e <> width (State.layout state) ->
  exists heights,
    PlainObject.handleLayout I props state e = Some heights /\
    forall k,
      k ∈ keys (Routes.items (Props.routes props)) ->
      PlainObject.get heights k =
      Some (if plainKey k
            then PlainObject.Data
                   (getDefaultHeaderHeight I e (Props.insets props))
            else PlainObject.Builtin k).
Proof.
  intros Hdiff. unfold PlainObject.handleLayout.
  assert (Hneq : number_eqb (height e) (height (State.layout state))
                 && number_eqb (width e) (width (State.layout state)) = false).
  { apply andb_false_iff.
    destruct Hdiff as [Hd | Hd]; [left | right]; by apply number_eqb_neq. }
  rewrite Hneq. eexists. split; [reflexivity |].
  intros k Hin. unfold PlainObject.get at 1.
  unfold PlainObject.getFloatingHeaderHeights.
  rewrite PlainObject_fold_lookup, decide_True by done.
  rewrite lookup_empty. unfold PlainObject.get. rewrite lookup_empty.
  destruct (plainKey k) eqn:Hk.
  - rewrite (plainKey_not_proto _ Hk). cbn. by destruct e.
  - by destruct (String.eqb k "__proto__").
Qed.

Lemma layout_change_inherited_key_witness :
  exists heights,
    PlainObject.handleLayout (Sample.imports "ios") MoreSamples.props9
      (Component.state (Sample.mounted "ios" MoreSamples.props9))
      Sample.landscape = Some heights /\
    PlainObject.get heights "A" = Some (PlainObject.Data (Q2Qc 52)) /\
    PlainObject.get heights "constructor"
    = Some (PlainObject.Builtin "constructor").
Proof.
  destruct (layout_change_inherited_key (Sample.imports "ios")
              MoreSamples.props9
              (Component.state (Sample.mounted "ios" MoreSamples.props9))
              Sample.landscape) as (heights & Hh & Hk).
  - left. vm_compute. discriminate.
  - exists heights. split; [exact Hh |].
    split; [rewrite (Hk "A") | rewrite (Hk "constructor")];
      first [reflexivity | has_key].
Defined.


(** ** Scenes *)

(** What a derivation that returns an update has computed. *)
Lemma getDerivedStateFromProps_inv I props state h u h' :
  Stack.getDerivedStateFromProps I props state h = (Some u, h') ->
  let routes := Routes.items (Props.routes props) in
  exists progress scenes,
    StateUpdate.routes u = Some (Props.routes props) /\
    StateUpdate.descriptors u = Some (Props.descriptors props) /\
    StateUpdate.progress u = Some progress /\
    StateUpdate.scenes u = Some scenes /\
    StateUpdate.layout u = None /\
    (forall K, K ∈ keys routes -> is_Some (progress !! K)) /\
    (forall K v, K ∈ keys routes -> State.progress state !! K = Some v ->
                 progress !! K = Some v) /\
    (forall K, K ∉ keys routes -> progress !! K = None) /\
    length scenes = length routes /\
    (forall j r, routes !! j = Some r ->
       exists ref,
         scenes !! j =
         Some (Stack.memoized (State.scenes state !! j)
                 (Stack.newScene props state progress routes r j ref))).
Proof.
  intros Hd routes.
  destruct (Stack.sameInputs props state) eqn:Hs.
  { rewrite getDerivedStateFromProps_null in Hd by done. discriminate. }
  destruct (getDerivedStateFromProps_some I props state h Hs)
    as (progress & h1 & scenes & h2 & Hr & Hm & Hd').
  rewrite Hd' in Hd. inversion Hd; subst u h'; clear Hd Hd'.
  exists progress, scenes. cbn.
  destruct (reduce_progress _ _ _ _ _ _ _ Hr) as (_ & _ & _ & Hout & Hold & Hnew).
  destruct (map_from_scenes _ _ _ _ _ _ _ _ _ Hm) as (_ & _ & _ & Hlen & Hall).
  do 5 (split; [done |]). split; [| split; [| split; [| split]]].
  - intros K HK. destruct (State.progress state !! K) as [v |] eqn:Hv.
    + exists v. by apply Hold.
    + destruct (Hnew K HK Hv) as (l & _ & Hl & _). by exists l.
  - exact Hold.
  - intros K HK. by rewrite (Hout K HK).
  - exact Hlen.
  - intros j r Hj. eexists. by apply (Hall j r Hj).
Qed.

Lemma Descriptor_same_refl (d : option Descriptor.t) : Descriptor.same d d = true.
Proof. destruct d; [apply Nat.eqb_refl | done]. Qed.

Lemma memoized_reuse (old scene : Scene.t) :
  Stack.unchanged scene old = true -> Stack.memoized (Some old) scene = old.
Proof. intros Hu. unfold Stack.memoized. by rewrite Hu. Qed.

(** A scene that a derivation stored is found unchanged by the next
    derivation when the route, the progress values and the descriptor
    entries are the same. *)
Lemma stored_scene_unchanged props props' state state' progress routes r j
    ref ref' :
  SceneDescriptorMap.entries (Props.descriptors props')
    = SceneDescriptorMap.entries (Props.descriptors props) ->
  SceneDescriptorMap.entries (State.descriptors state')
    = SceneDescriptorMap.entries (Props.descriptors props) ->
  let stored :=
    Stack.memoized (State.scenes state !! j)
      (Stack.newScene props state progress routes r j ref) in
  State.scenes state' !! j = Some stored ->
  Stack.unchanged (Stack.newScene props' state' progress routes r j ref')
    stored = true.
Proof.
  intros Hentries Hentries' stored Hstored.
  unfold Stack.unchanged, Stack.newScene at 1 2 3 4 5. cbn.
  rewrite Hstored. unfold Stack.sceneDescriptor at 1.
  rewrite Hentries, Hentries'.
  assert (Scene.descriptor (Stack.newScene props state progress routes r j ref)
          = Stack.sceneDescriptor props state (State.scenes state !! j) (key r))
    as Hdesc by reflexivity.
  unfold stored, Stack.memoized.
  destruct (State.scenes state !! j) as [old |] eqn:Hold.
  - destruct (Stack.unchanged _ old) eqn:Hu.
    + unfold Stack.unchanged in Hu.
      apply andb_prop in Hu as [Hu Hd]. apply andb_prop in Hu as [Hu Hp].
      apply andb_prop in Hu as [Hu Hn]. apply andb_prop in Hu as [Hr Hc].
      cbn in Hr, Hc, Hn, Hp. rewrite Hr, Hc, Hn, Hp. cbn.
      rewrite Hdesc in Hd. unfold Stack.sceneDescriptor in Hd.
      destruct (SceneDescriptorMap.entries (Props.descriptors props) !! key r);
        [done |].
      apply Descriptor_same_refl.
    + cbn. unfold same_route. rewrite Nat.eqb_refl, !bool_decide_eq_true_2 by done.
      cbn. unfold Stack.sceneDescriptor.
      destruct (SceneDescriptorMap.entries (Props.descriptors props) !! key r);
        [apply Nat.eqb_refl |].
      apply Descriptor_same_refl.
  - cbn. unfold same_route. rewrite Nat.eqb_refl, !bool_decide_eq_true_2 by done.
    cbn. unfold Stack.sceneDescriptor.
    destruct (SceneDescriptorMap.entries (Props.descriptors props) !! key r);
      [apply Nat.eqb_refl |].
    apply Descriptor_same_refl.
Qed.

(** C4. In a derivation that recomputes the scenes, when the scene newly
    computed for index [i] has the same route object, the same descriptor
    object and the same three progress values as the scene stored at [i],
    the new state holds the stored scene object itself at [i]. Hence a
    further derivation from props with the same routes and the same
    descriptors gives, at every index, the scene objects of the state it
    starts from. *)
Theorem scene_memoization (I : Imports) (props : Props.t) (state : State.t)
    (h : Heap) (u : StateUpdate.t) (h' : Heap) :
  Stack.getDerivedStateFromProps I props state h = (Some u, h') ->
  let state' := StateUpdate.merge state u in
  (forall i route old ref,
     Routes.items (Props.routes props) !! i = Some route ->
     State.scenes state !! i = Some old ->
     let scene :=
       Stack.newScene props state (State.progress state')
         (Routes.items (Props.routes props)) route i ref in
     same_route (Scene.route scene) (Scene.route old) = true ->
     Descriptor.same (Scene.descriptor scene) (Scene.descriptor old) = true ->
     SceneProgress.current (Scene.progress scene)
       = SceneProgress.current (Scene.progress old) ->
     SceneProgress.next (Scene.progress scene)
       = SceneProgress.next (Scene.progress old) ->
     SceneProgress.previous (Scene.progress scene)
       = SceneProgress.previous (Scene.progress old) ->
     State.scenes state' !! i = Some old) /\
  (forall props' h2,
     Routes.items (Props.routes props') = Routes.items (Props.routes props) ->
     SceneDescriptorMap.entries (Props.descriptors props')
       = SceneDescriptorMap.entries (Props.descriptors props) ->
     State.scenes (Stack.derive I props' state' h2).1 = State.scenes state').
Proof.
  intros Hd state'.
  destruct (getDerivedStateFromProps_inv _ _ _ _ _ _ Hd)
    as (progress & scenes & Hur & Hud & Hup & Hus & Hul & Hsome & Hkeep
        & Hnone & Hlen & Hall).
  assert (State.progress state' = progress) as Hprogress
    by (unfold state', StateUpdate.merge; cbn; by rewrite Hup).
  assert (State.scenes state' = scenes) as Hscenes
    by (unfold state', StateUpdate.merge; cbn; by rewrite Hus).
  assert (State.descriptors state' = Props.descriptors props) as Hdescriptors
    by (unfold state', StateUpdate.merge; cbn; by rewrite Hud).
  split.
  - intros i route old ref Hi Hold scene Hr Hdesc Hc Hn Hp.
    destruct (Hall i route Hi) as [ref0 Hsc].
    rewrite Hscenes, Hsc, Hold. f_equal. apply memoized_reuse.
    subst scene. rewrite Hprogress in Hr, Hdesc, Hc, Hn, Hp.
    unfold Stack.unchanged, Stack.newScene in *. cbn in *.
    rewrite Hr, Hdesc, Hc, Hn, Hp. by rewrite !bool_decide_eq_true_2.
  - intros props' h2 Hroutes Hentries.
    destruct (Stack.sameInputs props' state') eqn:Hs.
    { by rewrite derive_null. }
    destruct (getDerivedStateFromProps_some I props' state' h2 Hs)
      as (progress2 & h3 & scenes2 & h4 & _ & _ & Hd2).
    rewrite derive_run, Hd2, Hscenes.
    destruct (getDerivedStateFromProps_inv _ _ _ _ _ _ Hd2)
      as (progress2' & scenes2' & _ & _ & Hup2 & Hus2 & _ & _ & Hkeep2
          & Hnone2 & Hlen2 & Hall2).
    cbn in Hup2, Hus2. inversion Hup2; subst progress2'.
    inversion Hus2; subst scenes2'. clear Hup2 Hus2. cbn.
    rewrite Hroutes in Hkeep2, Hnone2, Hlen2, Hall2.
    assert (progress2 = progress) as ->.
    { apply map_eq. intros K.
      destruct (decide (K ∈ keys (Routes.items (Props.routes props))))
        as [HK | HK].
      - destruct (Hsome K HK) as [v Hv]. rewrite Hv. apply Hkeep2; [done |].
        by rewrite Hprogress.
      - by rewrite Hnone, Hnone2. }
    apply list_eq. intros j.
    destruct (Routes.items (Props.routes props) !! j) as [r |] eqn:Hj.
    + destruct (Hall j r Hj) as [ref Hsc].
      destruct (Hall2 j r Hj) as [ref2 Hsc2].
      rewrite Hsc2, Hsc. f_equal. rewrite Hscenes, Hsc.
      apply memoized_reuse.
      apply stored_scene_unchanged; [done | by rewrite Hdescriptors |].
      by rewrite Hscenes.
    + apply lookup_ge_None in Hj.
      rewrite !(proj2 (lookup_ge_None _ _)); [done | lia | lia].
Qed.

Lemma scene_memoization_witness :
  State.scenes
    (Stack.derive (Sample.imports "ios")
       (Sample.mkProps 7 [Sample.A; Sample.B; Sample.C]
          (<["A" := Sample.dA]>
             (<["B" := Sample.dB]> {[ "C" := Sample.dC ]}))
          [] 2 "float")
       (Component.state (Sample.mounted "ios" Sample.props2))
       (Component.heap (Sample.mounted "ios" Sample.props2))).1
  = State.scenes (Component.state (Sample.mounted "ios" Sample.props2)).
Proof.
  destruct (Stack.getDerivedStateFromProps (Sample.imports "ios") Sample.props2
              (Stack.initialState 0 Sample.window Sample.props2) initial_heap)
    as [[u |] h'] eqn:Hd; [| vm_compute in Hd; discriminate].
  pose proof (proj2 (scene_memoization _ _ _ _ _ _ Hd)
                (Sample.mkProps 7 [Sample.A; Sample.B; Sample.C]
                   (<["A" := Sample.dA]>
                      (<["B" := Sample.dB]> {[ "C" := Sample.dC ]}))
                   [] 2 "float")
                h' eq_refl eq_refl) as Hthm.
  vm_compute in Hd. inversion Hd; subst u h'. exact Hthm.
Defined.

(** ** Descriptors of scenes *)

Lemma Descriptor_same_sym (a b : option Descriptor.t) :
  Descriptor.same a b = Descriptor.same b a.
Proof. destruct a, b; try done. apply Nat.eqb_sym. Qed.

Lemma validateScene_returns I scene :
  validationReturns I -> Stack.validateScene I scene = Normal tt.
Proof.
  intros [Hprod | Hall]; unfold Stack.validateScene.
  - by rewrite Hprod.
  - destruct (negb (String.eqb (NODE_ENV I) "production")); [| done].
    destruct (Scene.descriptor scene); [apply Hall | done].
Qed.

(** A render completes when there is a focused route and a scene for every
    route, and the validation of the options returns. *)
Lemma render_total I props state :
  is_Some (NavigationState.routes (Props.navigation props)
             !! NavigationState.index (Props.navigation props)) ->
  length (Routes.items (Props.routes props)) <= length (State.scenes state) ->
  validationReturns I ->
  exists out, Stack.render I props state = Normal out.
Proof.
  intros [f Hf] Hlen Hvalid. unfold Stack.render. rewrite Hf.
  destruct (map_throw_total
              (Stack.renderRoute I props state f
                 (Routes.items (Props.routes props)))
              (Routes.items (Props.routes props)) 0) as [screens Hs].
  - intros i r Hi. simpl. unfold Stack.renderRoute.
    destruct (State.scenes state !! i) as [scene |] eqn:Hsc.
    + rewrite (validateScene_returns I scene Hvalid). by eexists.
    + apply lookup_ge_None in Hsc. apply lookup_lt_Some in Hi. lia.
  - rewrite Hs. by eexists.
Qed.

(** C8 (as amended). For a route whose key is not a property name of
    [Object.prototype], the descriptor of the scene at its index is, in this
    order: the entry of the new descriptor map for the route key; the entry
    of the previous state's descriptor map; the descriptor of the scene the
    previous state had at that index, when it had one; the shared
    placeholder with empty options. For such a route without an entry in
    either map at an index that had no scene, the scene holds the
    placeholder; and when the navigation state has a focused route, no route
    key nor the focused one is a property name of [Object.prototype], and
    the validation of the options returns, the render completes and the
    gesture settings emitted for the route are the preset's direction and no
    distance or impact, with the preset's spec and interpolators when the
    route is the last. *)
Theorem descriptor_resolution (I : Imports) (props : Props.t)
    (state : State.t) (h : Heap) (u : StateUpdate.t) (h' : Heap) :
  Stack.getDerivedStateFromProps I props state h = (Some u, h') ->
  let state' := StateUpdate.merge state u in
  let routes := Routes.items (Props.routes props) in
  let preset := Stack.defaultTransitionPreset I props in
  (forall i r, routes !! i = Some r ->
     plainKey (key r) = true ->
     exists scene,
       State.scenes state' !! i = Some scene /\
       Descriptor.same (Scene.descriptor scene)
         match SceneDescriptorMap.entries (Props.descriptors props) !! key r with
         | Some d => Some d
         | None =>
             match SceneDescriptorMap.entries (State.descriptors state)
                     !! key r with
             | Some d => Some d
             | None =>
                 match State.scenes state !! i with
                 | Some old => Scene.descriptor old
                 | None => Some FALLBACK_DESCRIPTOR
                 end
             end
         end = true) /\
  (forall i r, routes !! i = Some r ->
     plainKey (key r) = true ->
     SceneDescriptorMap.entries (Props.descriptors props) !! key r = None ->
     SceneDescriptorMap.entries (State.descriptors state) !! key r = None ->
     State.scenes state !! i = None ->
     (exists scene,
        State.scenes state' !! i = Some scene /\
        Scene.descriptor scene = Some FALLBACK_DESCRIPTOR) /\
     (forall focusedRoute,
        NavigationState.routes (Props.navigation props)
          !! NavigationState.index (Props.navigation props)
          = Some focusedRoute ->
        plainKey (key focusedRoute) = true ->
        forallb plainKey (keys routes) = true ->
        validationReturns I ->
        exists out m,
          Stack.render I props state' = Normal out /\
          Rendered.screens out !! i = Some m /\
          StackItem.gestureDirection (MaybeScreen.children m)
            = TransitionPreset.gestureDirection preset /\
          StackItem.gestureResponseDistance (MaybeScreen.children m) = None /\
          StackItem.gestureVelocityImpact (MaybeScreen.children m) = None /\
          (S i = length routes ->
           StackItem.transitionSpec (MaybeScreen.children m)
             = TransitionPreset.transitionSpec preset /\
           StackItem.cardStyleInterpolator (MaybeScreen.children m)
             = TransitionPreset.cardStyleInterpolator preset /\
           StackItem.headerStyleInterpolator (MaybeScreen.children m)
             = TransitionPreset.headerStyleInterpolator preset))).
Proof.
  intros Hd state' routes preset.
  destruct (getDerivedStateFromProps_inv _ _ _ _ _ _ Hd)
    as (progress & scenes & Hur & Hud & Hup & Hus & Hul & Hsome & Hkeep
        & Hnone & Hlen & Hall).
  assert (State.scenes state' = scenes) as Hscenes
    by (unfold state', StateUpdate.merge; cbn; by rewrite Hus).
  assert (Hplaceholder : forall i r, routes !! i = Some r ->
     SceneDescriptorMap.entries (Props.descriptors props) !! key r = None ->
     SceneDescriptorMap.entries (State.descriptors state) !! key r = None ->
     State.scenes state !! i = None ->
     exists scene,
       State.scenes state' !! i = Some scene /\
       Scene.descriptor scene = Some FALLBACK_DESCRIPTOR).
  { intros i r Hi Hfresh Hstale Hold. destruct (Hall i r Hi) as [ref Hsc].
    eexists. split; [by rewrite Hscenes, Hsc |].
    unfold Stack.memoized, Stack.newScene. rewrite Hold. cbn.
    unfold Stack.sceneDescriptor. by rewrite Hfresh, Hstale. }
  split.
  - intros i r Hi _. destruct (Hall i r Hi) as [ref Hsc].
    eexists. split; [by rewrite Hscenes, Hsc |].
    change (match SceneDescriptorMap.entries (Props.descriptors props) !! key r
            with Some d => Some d | None => _ end)
      with (Scene.descriptor
              (Stack.newScene props state progress routes r i ref)).
    unfold Stack.memoized.
    destruct (State.scenes state !! i) as [old |];
      [| apply Descriptor_same_refl].
    destruct (Stack.unchanged _ old) eqn:Hu; [| apply Descriptor_same_refl].
    unfold Stack.unchanged in Hu. apply andb_prop in Hu as [_ Hsame].
    by rewrite Descriptor_same_sym.
  - intros i r Hi _ Hfresh Hstale Hold.
    split; [exact (Hplaceholder i r Hi Hfresh Hstale Hold) |].
    intros focusedRoute Hfocused _ _ Hvalid.
    destruct (render_total I props state') as [out Hout].
    { rewrite Hfocused. by eexists. }
    { rewrite Hscenes, Hlen. done. }
    { done. }
    destruct (render_inv _ _ _ _ Hout) as (f & _ & _ & Hscreens & _).
    destruct (Hscreens i r Hi) as (m & Hm & Hrr).
    destruct (Hplaceholder i r Hi Hfresh Hstale Hold) as (scene & Hsc & Hdesc).
    exists out, m. split; [done |]. split; [done |].
    unfold Stack.renderRoute in Hrr. rewrite Hsc in Hrr. validated Hrr.
    inversion Hrr; subst m; clear Hrr. cbn. rewrite Hdesc. cbn.
    do 3 (split; [done |]). intros Hlast.
    by rewrite index_is_last, bool_decide_eq_true_2.
Qed.

Lemma descriptor_resolution_witness :
  exists scene out m,
    State.scenes (Component.state (Sample.mounted "ios" Sample.props5))
      !! 3%nat = Some scene /\
    Scene.descriptor scene = Some FALLBACK_DESCRIPTOR /\
    Stack.render (Sample.imports "ios") Sample.props5
      (Component.state (Sample.mounted "ios" Sample.props5)) = Normal out /\
    Rendered.screens out !! 3%nat = Some m /\
    StackItem.gestureDirection (MaybeScreen.children m) = 10%nat /\
    StackItem.transitionSpec (MaybeScreen.children m) = 11%nat.
Proof.
  destruct (Stack.getDerivedStateFromProps (Sample.imports "ios") Sample.props5
              (Stack.initialState 0 Sample.window Sample.props5) initial_heap)
    as [[u |] h'] eqn:Hd; [| vm_compute in Hd; discriminate].
  destruct (descriptor_resolution _ _ _ _ _ _ Hd) as [_ Habsent].
  destruct (Habsent 3%nat Sample.D eq_refl eq_refl eq_refl eq_refl eq_refl)
    as [(scene & Hsc & Hdesc) Hrender].
  destruct (Hrender Sample.D eq_refl eq_refl eq_refl
              ltac:(right; intros o; reflexivity))
    as (out & m & Hout & Hm & Hdir & _ & _ & Hlast).
  destruct (Hlast eq_refl) as (Hspec & _).
  vm_compute in Hd. inversion Hd; subst u h'.
  exists scene, out, m. repeat split; assumption.
Defined.

(** The wording of C8 gives the placeholder to every route without an entry
    in either descriptor map. When route D replaces route A at index 0 and
    has no descriptor, its scene takes the descriptor of the scene that was
    at index 0, which is the descriptor of A. *)
Lemma placeholder_not_used_over_old_scene :
  ~ (forall (I : Imports) (props : Props.t) (state : State.t) (h : Heap)
            (u : StateUpdate.t) (h' : Heap) (i : nat) (r : NavigationRoute),
       Stack.getDerivedStateFromProps I props state h = (Some u, h') ->
       Routes.items (Props.routes props) !! i = Some r ->
       SceneDescriptorMap.entries (Props.descriptors props) !! key r = None ->
       SceneDescriptorMap.entries (State.descriptors state) !! key r = None ->
       exists scene,
         State.scenes (StateUpdate.merge state u) !! i = Some scene /\
         Scene.descriptor scene = Some FALLBACK_DESCRIPTOR).
Proof.
  intros Hclaim.
  destruct (Stack.getDerivedStateFromProps (Sample.imports "ios")
              (Sample.mkProps 8 [Sample.D] ∅ [] 0 "float")
              (Component.state (Sample.mounted "ios" Sample.props1))
              (Component.heap (Sample.mounted "ios" Sample.props1)))
    as [[u |] h'] eqn:Hd; [| vm_compute in Hd; discriminate].
  destruct (Hclaim _ _ _ _ u h' 0%nat Sample.D Hd eq_refl eq_refl eq_refl)
    as (scene & Hsc & Hdesc).
  vm_compute in Hd. inversion Hd; subst u h'.
  vm_compute in Hsc. inversion Hsc; subst scene.
  vm_compute in Hdesc. discriminate.
Qed.

(** In that state the screen of D is emitted with the transition spec of
    A's options (31), not the preset's (11). *)
Example old_scene_descriptor_config :
  match Stack.render (Sample.imports "ios")
          (Sample.mkProps 8 [Sample.D] ∅ [] 0 "float")
          (Component.state
             (run (Sample.imports "ios") (Sample.mounted "ios" Sample.props1)
                [Receive (Sample.mkProps 8 [Sample.D] ∅ [] 0 "float")])) with
  | Normal out =>
      (StackItem.transitionSpec ∘ MaybeScreen.children)
        <$> Rendered.screens out
  | TypeError => []
  end = [31%nat].
Proof. vm_compute. reflexivity. Qed.

(** A descriptor object that changed gives its route a new scene object,
    and leaves the scene objects of the other routes in place. *)
Example changed_descriptor_new_scene :
  let before := Component.state (Sample.mounted "ios" Sample.props2) in
  let after :=
    Component.state
      (run (Sample.imports "ios") (Sample.mounted "ios" Sample.props2)
         [Receive
            (Sample.mkProps 7 [Sample.A; Sample.B; Sample.C]
               (<["A" := Sample.dA]>
                  (<["B" := Descriptor.mk 9 Sample.optionsB]>
                     {[ "C" := Sample.dC ]}))
               [] 2 "float")]) in
  Scene.ref <$> State.scenes before = [0; 1; 2]%nat /\
  Scene.ref <$> State.scenes after = [0; 4; 2]%nat.
Proof. vm_compute. split; reflexivity. Qed.

(** * Further properties of the derivation *)

(** ** The domain of the progress map and the allocations *)

(** X1. A derivation that recomputes the state gives a progress value to
    exactly the keys of the new route list, among the keys that are not
    property names of [Object.prototype]: such a key that left the list has
    no entry any more, whatever the previous state held for it. *)
Theorem progress_domain_is_route_keys (I : Imports) (props : Props.t)
    (state : State.t) (h : Heap) (u : StateUpdate.t) (h' : Heap) :
  Stack.getDerivedStateFromProps I props state h = (Some u, h') ->
  forall K,
    plainKey K = true ->
    (is_Some (State.progress (StateUpdate.merge state u) !! K) <->
     K ∈ keys (Routes.items (Props.routes props))).
Proof.
  intros Hd K _.
  destruct (getDerivedStateFromProps_inv _ _ _ _ _ _ Hd)
    as (progress & scenes & _ & _ & Hup & _ & _ & Hsome & _ & Hnone & _).
  unfold StateUpdate.merge. cbn. rewrite Hup. cbn. split.
  - intros [v Hv].
    destruct (decide (K ∈ keys (Routes.items (Props.routes props))))
      as [HK | HK]; [done |].
    rewrite (Hnone K HK) in Hv. discriminate.
  - apply Hsome.
Qed.

Lemma progress_domain_is_route_keys_witness :
  exists u h',
    Stack.getDerivedStateFromProps (Sample.imports "ios") Sample.props3
      (Component.state (Sample.mounted "ios" Sample.props2))
      (Component.heap (Sample.mounted "ios" Sample.props2)) = (Some u, h') /\
    State.progress
      (StateUpdate.merge (Component.state (Sample.mounted "ios" Sample.props2))
         u) !! "B" = None /\
    is_Some
      (State.progress
         (StateUpdate.merge
            (Component.state (Sample.mounted "ios" Sample.props2)) u) !! "C").
Proof.
  destruct (Stack.getDerivedStateFromProps (Sample.imports "ios") Sample.props3
              (Component.state (Sample.mounted "ios" Sample.props2))
              (Component.heap (Sample.mounted "ios" Sample.props2)))
    as [[u |] h'] eqn:Hd; [| vm_compute in Hd; discriminate].
  exists u, h'. split; [reflexivity |].
  pose proof (progress_domain_is_route_keys _ _ _ _ _ _ Hd) as Hdom. split.
  - destruct (State.progress _ !! "B") as [v |] eqn:Hv; [| reflexivity].
    exfalso. assert ("B" ∈ keys [Sample.A; Sample.C]) as Hin
      by (apply (Hdom "B" eq_refl); rewrite Hv; by eexists).
    apply list_elem_of_In in Hin. vm_compute in Hin.
    destruct Hin as [Hin | [Hin | []]]; discriminate.
  - apply (Hdom "C" eq_refl). apply list_elem_of_In. vm_compute. auto.
Defined.

(** The [reduce] allocates at most one value per route, and none when every
    route key has a value already. *)
Lemma reduce_progress_count props state :
  forall rs acc h acc' h',
    reduce (Stack.progressReducer props state) rs acc h = (acc', h') ->
    (next_value h' <= next_value h + length rs)%nat /\
    ((forall K, K ∈ keys rs -> is_Some (State.progress state !! K)) -> h' = h).
Proof.
  induction rs as [| curr rest IH]; intros acc h acc' h' Hr.
  - inversion Hr; subst. split; [simpl; lia | done].
  - rewrite reduce_cons in Hr.
    destruct (Stack.progressReducer props state acc curr h) as [acc1 h1] eqn:H1.
    destruct (IH _ _ _ _ Hr) as [Hcount Hsame].
    destruct (State.progress state !! key curr) as [v |] eqn:Hp.
    + rewrite (progressReducer_old _ _ _ _ _ _ Hp) in H1.
      inversion H1; subst acc1 h1. split; [simpl; lia |].
      intros Hall. apply Hsame. intros K HK. apply Hall.
      by apply elem_of_cons; right.
    + rewrite (progressReducer_new _ _ _ _ _ Hp) in H1.
      inversion H1; subst acc1 h1. cbn [next_value] in Hcount.
      split; [simpl; lia |].
      intros Hall. destruct (Hall (key curr)) as [v Hv].
      { by apply elem_of_cons; left. }
      congruence.
Qed.

(** X2. A derivation writes no cell of the heap that existed before it, and
    allocates at most one animated value per route of the new list; when
    every route key already has a progress value it leaves the animated
    values exactly as they were. *)
Theorem derive_heap_frame (I : Imports) (props : Props.t) (state : State.t)
    (h : Heap) :
  let h' := (Stack.derive I props state h).2 in
  (forall l, (l < next_value h)%nat -> values h' !! l = values h !! l) /\
  (next_value h <= next_value h'
   <= next_value h + length (Routes.items (Props.routes props)))%nat /\
  ((forall K, K ∈ keys (Routes.items (Props.routes props)) ->
      is_Some (State.progress state !! K)) ->
   values h' = values h /\ next_value h' = next_value h).
Proof.
  intros h'. subst h'. destruct (Stack.sameInputs props state) eqn:Hs.
  { rewrite derive_null by done. cbn. repeat split; try done; lia. }
  destruct (getDerivedStateFromProps_some I props state h Hs)
    as (progress & h1 & scenes & h2 & Hr & Hm & Hd).
  rewrite derive_run, Hd. cbn.
  destruct (reduce_progress _ _ _ _ _ _ _ Hr) as (Hle & _ & Hfr & _).
  destruct (reduce_progress_count _ _ _ _ _ _ _ Hr) as [Hcount Hsame].
  destruct (map_from_scenes _ _ _ _ _ _ _ _ _ Hm) as (Hnv & Hvs & _).
  rewrite Hnv, Hvs. split; [exact Hfr |]. split; [lia |].
  intros Hall. by rewrite (Hsame Hall).
Qed.

Lemma derive_heap_frame_witness :
  values
    (Stack.derive (Sample.imports "ios") Sample.props3
       (Component.state (Sample.mounted "ios" Sample.props2))
       (Component.heap (Sample.mounted "ios" Sample.props2))).2
  = values (Component.heap (Sample.mounted "ios" Sample.props2)).
Proof.
  apply (proj2 (proj2 (derive_heap_frame (Sample.imports "ios") Sample.props3
           (Component.state (Sample.mounted "ios" Sample.props2))
           (Component.heap (Sample.mounted "ios" Sample.props2))))).
  intros K HK. apply list_elem_of_In in HK. vm_compute in HK.
  destruct HK as [<- | [<- | []]]; vm_compute; by eexists.
Defined.

(** ** The allocation discipline is kept *)

Lemma allocated_initial : allocated ∅ initial_heap.
Proof.
  unfold allocated, ANIMATED_ONE. cbn. split; [lia |]. split.
  - intros K v Hv. by rewrite lookup_empty in Hv.
  - intros K K' v Hv. by rewrite lookup_empty in Hv.
Qed.

Lemma progressReducer_accumulated props state n0 acc curr h acc' h' :
  (ANIMATED_ONE < n0)%nat ->
  (forall K v, State.progress state !! K = Some v ->
     (ANIMATED_ONE < v < n0)%nat) ->
  (forall K K' v, State.progress state !! K = Some v ->
     State.progress state !! K' = Some v -> K = K') ->
  accumulated (State.progress state) n0 acc h ->
  Stack.progressReducer props state acc curr h = (acc', h') ->
  accumulated (State.progress state) n0 acc' h'.
Proof.
  unfold accumulated, ANIMATED_ONE.
  intros Hn0 Hold Hinj (Hle & Hcells & Hacc & Hdistinct) Hstep.
  destruct (State.progress state !! key curr) as [v0 |] eqn:Hp.
  - rewrite (progressReducer_old _ _ _ _ _ _ Hp) in Hstep.
    inversion Hstep; subst acc' h'; clear Hstep.
    assert (Hins : forall K v, <[key curr := v0]> acc !! K = Some v ->
              (0 < v < next_value h)%nat /\
              is_Some (values h !! v) /\
              ((v < n0)%nat -> State.progress state !! K = Some v)).
    { intros K v. rewrite lookup_insert. case_decide as HK.
      - intros [= <-]. subst K. destruct (Hold _ _ Hp). split; [lia |].
        split; [by eapply Hcells | done].
      - apply Hacc. }
    split; [done |]. split; [done |]. split; [exact Hins |].
    intros K K' v HK HK'.
    destruct (Hins _ _ HK) as (_ & _ & HKold).
    destruct (Hins _ _ HK') as (_ & _ & HKold').
    rewrite lookup_insert in HK, HK'.
    destruct (decide (key curr = K)) as [<- | Hne];
      destruct (decide (key curr = K')) as [<- | Hne']; try done.
    + inversion HK; subst v. destruct (Hold _ _ Hp).
      eapply Hinj; [exact Hp | apply HKold'; lia].
    + inversion HK'; subst v. destruct (Hold _ _ Hp).
      eapply Hinj; [apply HKold; lia | exact Hp].
    + by eapply Hdistinct.
  - rewrite (progressReducer_new _ _ _ _ _ Hp) in Hstep.
    inversion Hstep; subst acc' h'; clear Hstep.
    cbn [next_value values next_object].
    assert (Hcell : forall v, is_Some (values h !! v) ->
              is_Some (<[next_value h := Stack.initialProgress props (key curr)]>
                         (values h) !! v)).
    { intros v Hv. rewrite lookup_insert. by case_decide. }
    assert (Hins : forall K v, <[key curr := next_value h]> acc !! K = Some v ->
              (0 < v < S (next_value h))%nat /\
              is_Some (<[next_value h := Stack.initialProgress props (key curr)]>
                         (values h) !! v) /\
              ((v < n0)%nat -> State.progress state !! K = Some v) /\
              (K <> key curr -> (v < next_value h)%nat)).
    { intros K v. rewrite lookup_insert. case_decide as HK.
      - intros [= <-]. subst K. split; [lia |]. split.
        + rewrite lookup_insert_eq. by eexists.
        + split; [lia | done].
      - intros Hv. destruct (Hacc _ _ Hv) as (Hr & Hc & Ho).
        split; [lia |]. split; [by apply Hcell |]. split; [done | lia]. }
    split; [lia |]. split; [intros K v Hv; apply Hcell; by eapply Hcells |].
    split.
    { intros K v Hv. destruct (Hins _ _ Hv) as (? & ? & ? & _). done. }
    intros K K' v HK HK'.
    destruct (Hins _ _ HK) as (_ & _ & _ & Hlt).
    destruct (Hins _ _ HK') as (_ & _ & _ & Hlt').
    rewrite lookup_insert in HK, HK'.
    destruct (decide (key curr = K)) as [<- | Hne];
      destruct (decide (key curr = K')) as [<- | Hne']; try done.
    + inversion HK; subst v. specialize (Hlt' ltac:(done)). lia.
    + inversion HK'; subst v. specialize (Hlt ltac:(done)). lia.
    + by eapply Hdistinct.
Qed.

Lemma reduce_accumulated props state n0 :
  (ANIMATED_ONE < n0)%nat ->
  (forall K v, State.progress state !! K = Some v ->
     (ANIMATED_ONE < v < n0)%nat) ->
  (forall K K' v, State.progress state !! K = Some v ->
     State.progress state !! K' = Some v -> K = K') ->
  forall rs acc h acc' h',
    accumulated (State.progress state) n0 acc h ->
    reduce (Stack.progressReducer props state) rs acc h = (acc', h') ->
    accumulated (State.progress state) n0 acc' h'.
Proof.
  intros Hn0 Hold Hinj.
  induction rs as [| curr rest IH]; intros acc h acc' h' Hacc Hr.
  - by inversion Hr; subst.
  - rewrite reduce_cons in Hr.
    destruct (Stack.progressReducer props state acc curr h) as [acc1 h1] eqn:H1.
    eapply IH; [| exact Hr].
    by eapply progressReducer_accumulated.
Qed.

Lemma derive_allocated I props state h :
  allocated (State.progress state) h ->
  allocated (State.progress (Stack.derive I props state h).1)
    (Stack.derive I props state h).2.
Proof.
  intros (Hone & Hcells & Hinj).
  destruct (Stack.sameInputs props state) eqn:Hs.
  { by rewrite derive_null. }
  destruct (getDerivedStateFromProps_some I props state h Hs)
    as (progress & h1 & scenes & h2 & Hr & Hm & Hd).
  rewrite derive_run, Hd. cbn.
  destruct (map_from_scenes _ _ _ _ _ _ _ _ _ Hm) as (Hnv & Hvs & _).
  assert (accumulated (State.progress state) (next_value h) progress h1)
    as (Hle & _ & Hacc & Hdistinct).
  { eapply (reduce_accumulated props state (next_value h)); [done | | done | | exact Hr].
    - intros K v Hv. by destruct (Hcells K v Hv).
    - split; [done |]. split; [intros K v Hv; by destruct (Hcells K v Hv) |].
      split; [intros K v Hv; by rewrite lookup_empty in Hv |].
      intros K K' v Hv. by rewrite lookup_empty in Hv. }
  unfold allocated. rewrite Hnv, Hvs. split; [lia |]. split; [| done].
  intros K v Hv. by destruct (Hacc K v Hv) as (? & ? & _).
Qed.

Lemma rederive_allocated I props state h :
  allocated (State.progress state) h ->
  allocated (State.progress (Component.state (rederive I props state h)))
    (Component.heap (rederive I props state h)).
Proof.
  intros Ha. pose proof (derive_allocated I props state h Ha) as Hd.
  unfold rederive. by destruct (Stack.derive I props state h).
Qed.

Lemma step_allocated I c ev :
  allocated (State.progress (Component.state c)) (Component.heap c) ->
  allocated (State.progress (Component.state (step I c ev)))
    (Component.heap (step I c ev)).
Proof.
  intros Ha. destruct ev as [props' | e | route hgt | l x]; simpl.
  - by apply rederive_allocated.
  - destruct (Stack.handleLayout I _ _ e) as [u |] eqn:Hu; [| done].
    unfold Stack.handleLayout in Hu. case_match; [done |].
    inversion Hu; subst u. by apply rederive_allocated.
  - destruct (Stack.handleFloatingHeaderLayout _ route hgt) as [f |] eqn:Hf;
      [| done].
    unfold Stack.handleFloatingHeaderLayout in Hf. case_match; [done |].
    inversion Hf; subst f. by apply rederive_allocated.
  - destruct Ha as (Hone & Hcells & Hinj). split; [done |]. split; [| done].
    intros K v Hv. destruct (Hcells K v Hv) as [Hr Hc]. split; [done |].
    by apply lookup_alter_is_Some.
Qed.

Lemma run_allocated I evs : forall c,
  allocated (State.progress (Component.state c)) (Component.heap c) ->
  allocated (State.progress (Component.state (run I c evs)))
    (Component.heap (run I c evs)).
Proof.
  induction evs as [| ev evs IH]; intros c Ha; [done |].
  simpl. apply IH. by apply step_allocated.
Qed.

(** X3. From the mount on, through any sequence of events, and for the keys
    that are not property names of [Object.prototype]: two keys never share
    a progress value, the progress value of a key is an allocated cell of
    the heap, and it is not the shared [ANIMATED_ONE]. *)
Theorem progress_values_distinct (I : Imports) (props : Props.t)
    (fresh : nat) (window : Layout) (evs : list Event) :
  let c :=
    run I (rederive I props (Stack.initialState fresh window props)
             initial_heap) evs in
  let progress := State.progress (Component.state c) in
  (forall K K' v, plainKey K = true -> plainKey K' = true ->
     progress !! K = Some v -> progress !! K' = Some v -> K = K') /\
  (forall K v, plainKey K = true -> progress !! K = Some v ->
     v <> ANIMATED_ONE /\ (v < next_value (Component.heap c))%nat /\
     is_Some (values (Component.heap c) !! v)).
Proof.
  intros c progress.
  assert (allocated progress (Component.heap c)) as (_ & Hcells & Hinj).
  { apply run_allocated, rederive_allocated. apply allocated_initial. }
  split; [intros K K' v _ _; apply Hinj |].
  intros K v _ Hv. destruct (Hcells K v Hv) as [Hr Hc].
  split; [lia |]. split; [lia | done].
Qed.

Lemma progress_values_distinct_witness :
  exists v,
    State.progress
      (Component.state
         (run (Sample.imports "ios")
            (rederive (Sample.imports "ios") Sample.props2
               (Stack.initialState 0 Sample.window Sample.props2)
               initial_heap)
            [Receive Sample.props3; Animate 1 (Q2Qc (1 # 2))])) !! "C"
    = Some v /\
    v <> ANIMATED_ONE.
Proof.
  destruct (State.progress
              (Component.state
                 (run (Sample.imports "ios")
                    (rederive (Sample.imports "ios") Sample.props2
                       (Stack.initialState 0 Sample.window Sample.props2)
                       initial_heap)
                    [Receive Sample.props3; Animate 1 (Q2Qc (1 # 2))]))
              !! "C") as [v |] eqn:Hv; [| vm_compute in Hv; discriminate].
  exists v. split; [reflexivity |].
  exact (proj1 (proj2 (progress_values_distinct (Sample.imports "ios")
                         Sample.props2 0 Sample.window
                         [Receive Sample.props3; Animate 1 (Q2Qc (1 # 2))])
                  "C" v eq_refl Hv)).
Defined.

(** X4. A key that leaves the route list and comes back gets a progress
    value that is a new object: it differs from the value the key had
    before, and holds the seed of a new key. *)
Theorem returning_key_gets_new_value (I : Imports) (props1 props2 : Props.t)
    (state : State.t) (h : Heap) (K : string) (v : loc) :
  State.progress state !! K = Some v ->
  (v < next_value h)%nat ->
  Stack.sameInputs props1 state = false ->
  K ∉ keys (Routes.items (Props.routes props1)) ->
  let state1 := (Stack.derive I props1 state h).1 in
  let h1 := (Stack.derive I props1 state h).2 in
  Stack.sameInputs props2 state1 = false ->
  K ∈ keys (Routes.items (Props.routes props2)) ->
  State.progress state1 !! K = None /\
  exists v',
    State.progress (Stack.derive I props2 state1 h1).1 !! K = Some v' /\
    v' <> v /\
    values (Stack.derive I props2 state1 h1).2 !! v'
      = Some (Stack.initialProgress props2 K).
Proof.
  intros Hv Hlt Hs1 Hout state1 h1 Hs2 Hin.
  destruct (getDerivedStateFromProps_some I props1 state h Hs1)
    as (progress1 & ha & scenes1 & hb & Hr1 & Hm1 & Hd1).
  assert (State.progress state1 = progress1 /\ h1 = hb) as [Hp1 Hh1].
  { unfold state1, h1. rewrite derive_run, Hd1. by cbn. }
  destruct (reduce_progress _ _ _ _ _ _ _ Hr1) as (Hle1 & _ & _ & Hnone1 & _).
  destruct (map_from_scenes _ _ _ _ _ _ _ _ _ Hm1) as (Hnv1 & _).
  assert (State.progress state1 !! K = None) as Hgone.
  { rewrite Hp1, (Hnone1 K Hout). apply lookup_empty. }
  split; [done |].
  destruct (getDerivedStateFromProps_some I props2 state1 h1 Hs2)
    as (progress2 & hc & scenes2 & hd & Hr2 & Hm2 & Hd2).
  rewrite derive_run, Hd2. cbn.
  destruct (reduce_progress _ _ _ _ _ _ _ Hr2) as (_ & _ & _ & _ & _ & Hnew2).
  destruct (map_from_scenes _ _ _ _ _ _ _ _ _ Hm2) as (_ & Hvs2 & _).
  destruct (Hnew2 K Hin Hgone) as (l & Hl & Hpl & Hval).
  exists l. split; [done |]. split; [| by rewrite Hvs2].
  rewrite Hh1, Hnv1 in Hl. lia.
Qed.

Lemma returning_key_gets_new_value_witness :
  State.progress (Component.state (Sample.mounted "ios" Sample.props2)) !! "B"
    = Some 2%nat /\
  exists v',
    State.progress
      (Stack.derive (Sample.imports "ios") MoreSamples.props6
         (Stack.derive (Sample.imports "ios") Sample.props3
            (Component.state (Sample.mounted "ios" Sample.props2))
            (Component.heap (Sample.mounted "ios" Sample.props2))).1
         (Stack.derive (Sample.imports "ios") Sample.props3
            (Component.state (Sample.mounted "ios" Sample.props2))
            (Component.heap (Sample.mounted "ios" Sample.props2))).2).1
      !! "B" = Some v' /\
    v' <> 2%nat.
Proof.
  split; [reflexivity |].
  destruct (returning_key_gets_new_value (Sample.imports "ios") Sample.props3
              MoreSamples.props6
              (Component.state (Sample.mounted "ios" Sample.props2))
              (Component.heap (Sample.mounted "ios" Sample.props2)) "B" 2%nat)
    as (_ & v' & Hv' & Hne & _).
  - reflexivity.
  - vm_compute. lia.
  - reflexivity.
  - intros Hin. apply list_elem_of_In in Hin. vm_compute in Hin.
    destruct Hin as [Hin | [Hin | []]]; discriminate.
  - vm_compute. reflexivity.
  - apply list_elem_of_In. vm_compute. auto.
  - exists v'. split; [exact Hv' | exact Hne].
Defined.

(** ** The component stays in step with its props *)

Lemma rederive_in_sync I props state h :
  Stack.sameInputs props (Component.state (rederive I props state h)) = true /\
  Component.props (rederive I props state h) = props.
Proof.
  unfold rederive. destruct (Stack.sameInputs props state) eqn:Hs.
  - by rewrite derive_null.
  - destruct (getDerivedStateFromProps_some I props state h Hs)
      as (progress & h1 & scenes & h2 & _ & _ & Hd).
    rewrite derive_run, Hd. cbn. split; [| done].
    unfold Stack.sameInputs. cbn. by rewrite !Nat.eqb_refl.
Qed.

Lemma step_in_sync I c ev :
  Stack.sameInputs (Component.props c) (Component.state c) = true ->
  Stack.sameInputs (Component.props (step I c ev))
    (Component.state (step I c ev)) = true.
Proof.
  intros Hs. destruct ev as [props' | e | route hgt | l x]; simpl.
  - destruct (rederive_in_sync I props' (Component.state c) (Component.heap c))
      as [H1 H2]. by rewrite H2.
  - destruct (Stack.handleLayout I _ _ e) as [u |]; [| done].
    match goal with
    | |- context [rederive I ?p ?s ?h] =>
        destruct (rederive_in_sync I p s h) as [H1 H2]; by rewrite H2
    end.
  - destruct (Stack.handleFloatingHeaderLayout _ route hgt) as [f |]; [| done].
    match goal with
    | |- context [rederive I ?p ?s ?h] =>
        destruct (rederive_in_sync I p s h) as [H1 H2]; by rewrite H2
    end.
  - done.
Qed.

(** X5. Once props have been received, the state records their route array
    and descriptor map, and stays so through any further events: the
    derivation that React runs after a [setState] of the component then
    returns [null], so that the update of a layout or height handler is the
    whole change of state, and neither the heap nor the props change. *)
Theorem handlers_update_is_final (I : Imports) (c0 : Component.t)
    (props : Props.t) (evs : list Event) :
  let c := run I c0 (Receive props :: evs) in
  Stack.sameInputs (Component.props c) (Component.state c) = true /\
  (forall e u,
     Stack.handleLayout I (Component.props c) (Component.state c) e = Some u ->
     step I c (ContainerLayout e) =
     {| Component.props := Component.props c;
        Component.state := StateUpdate.merge (Component.state c) u;
        Component.heap := Component.heap c |}) /\
  (forall route H f,
     Stack.handleFloatingHeaderLayout (Component.state c) route H = Some f ->
     step I c (FloatingHeaderLayout route H) =
     {| Component.props := Component.props c;
        Component.state :=
          StateUpdate.merge (Component.state c) (f (Component.state c));
        Component.heap := Component.heap c |}).
Proof.
  intros c.
  assert (Stack.sameInputs (Component.props c) (Component.state c) = true)
    as Hsync.
  { unfold c. simpl.
    assert (forall evs c1,
              Stack.sameInputs (Component.props c1) (Component.state c1) = true ->
              Stack.sameInputs (Component.props (run I c1 evs))
                (Component.state (run I c1 evs)) = true) as Hrun.
    { clear. induction evs as [| ev evs IH]; intros c1 H1; [done |].
      simpl. apply IH. by apply step_in_sync. }
    apply Hrun.
    destruct (rederive_in_sync I props (Component.state c0) (Component.heap c0))
      as [H1 H2]. by rewrite H2. }
  split; [done |]. split.
  - intros e u Hu. simpl. rewrite Hu. unfold rederive.
    rewrite derive_null; [done |].
    unfold Stack.handleLayout in Hu. case_match; [done |].
    by inversion Hu; subst u.
  - intros route H f Hf. simpl. rewrite Hf. unfold rederive.
    rewrite derive_null; [done |].
    unfold Stack.handleFloatingHeaderLayout in Hf. case_match; [done |].
    by inversion Hf; subst f.
Qed.

Lemma handlers_update_is_final_witness :
  exists u,
    Stack.handleLayout (Sample.imports "ios")
      (Component.props
         (run (Sample.imports "ios") (Sample.mounted "ios" Sample.props1)
            [Receive Sample.props2]))
      (Component.state
         (run (Sample.imports "ios") (Sample.mounted "ios" Sample.props1)
            [Receive Sample.props2]))
      Sample.landscape = Some u /\
    Component.heap
      (step (Sample.imports "ios")
         (run (Sample.imports "ios") (Sample.mounted "ios" Sample.props1)
            [Receive Sample.props2])
         (ContainerLayout Sample.landscape))
    = Component.heap
        (run (Sample.imports "ios") (Sample.mounted "ios" Sample.props1)
           [Receive Sample.props2]).
Proof.
  destruct (Stack.handleLayout (Sample.imports "ios")
              (Component.props
                 (run (Sample.imports "ios")
                    (Sample.mounted "ios" Sample.props1)
                    [Receive Sample.props2]))
              (Component.state
                 (run (Sample.imports "ios")
                    (Sample.mounted "ios" Sample.props1)
                    [Receive Sample.props2]))
              Sample.landscape) as [u |] eqn:Hu;
    [| vm_compute in Hu; discriminate].
  exists u. split; [reflexivity |].
  rewrite (proj1 (proj2 (handlers_update_is_final (Sample.imports "ios")
                           (Sample.mounted "ios" Sample.props1)
                           Sample.props2 []))
             Sample.landscape u Hu).
  reflexivity.
Defined.

(** ** Scenes and routes after a derivation *)




(** ** When [render] throws *)

(** X7. [render] throws when the navigation state has no route at its
    index, when the state has fewer scenes than the props have routes, and,
    in a build that is not a production build, when
    [validateDeprecatedOptions] throws on the options of the scene of a
    route. *)
Theorem render_throws_when (I : Imports) (props : Props.t) (state : State.t) :
  NavigationState.routes (Props.navigation props)
    !! NavigationState.index (Props.navigation props) = None
  \/ (length (State.scenes state)
      < length (Routes.items (Props.routes props)))%nat
  \/ (exists i r scene,
        Routes.items (Props.routes props) !! i = Some r /\
        State.scenes state !! i = Some scene /\
        Stack.validateScene I scene = TypeError) ->
  Stack.render I props state = TypeError.
Proof.
  intros [Hf | [Hlt | (i & r & scene & Hi & Hsc & Hthrows)]].
  - unfold Stack.render. by rewrite Hf.
  - destruct (Stack.render I props state) as [out |] eqn:Hout; [| done].
    exfalso.
    destruct (render_inv _ _ _ _ Hout) as (f & _ & _ & Hscreens & _).
    destruct (lookup_lt_is_Some_2 _ _ Hlt) as [r Hr].
    destruct (Hscreens _ r Hr) as (m & _ & Hm).
    unfold Stack.renderRoute in Hm.
    rewrite (proj2 (lookup_ge_None (State.scenes state) _)) in Hm by lia.
    discriminate.
  - destruct (Stack.render I props state) as [out |] eqn:Hout; [| done].
    exfalso.
    destruct (render_inv _ _ _ _ Hout) as (f & _ & _ & Hscreens & _).
    destruct (Hscreens _ r Hi) as (m & _ & Hm).
    unfold Stack.renderRoute in Hm. rewrite Hsc, Hthrows in Hm.
    discriminate.
Qed.

(** X8. After a derivation that recomputes the state from the props,
    [render] with these props completes when the navigation state has a
    route at its index, neither the key of that route nor a key of the route
    list is a property name of [Object.prototype], and the validation of the
    options returns; it throws when the navigation state has no route at its
    index. *)
Theorem render_after_derivation (I : Imports) (props : Props.t)
    (state : State.t) (h : Heap) (u : StateUpdate.t) (h' : Heap) :
  Stack.getDerivedStateFromProps I props state h = (Some u, h') ->
  (forall focusedRoute,
     NavigationState.routes (Props.navigation props)
       !! NavigationState.index (Props.navigation props) = Some focusedRoute ->
     plainKey (key focusedRoute) = true ->
     forallb plainKey (keys (Routes.items (Props.routes props))) = true ->
     validationReturns I ->
     exists out,
       Stack.render I props (StateUpdate.merge state u) = Normal out) /\
  (NavigationState.routes (Props.navigation props)
     !! NavigationState.index (Props.navigation props) = None ->
   Stack.render I props (StateUpdate.merge state u) = TypeError).
Proof.
  intros Hd.
  destruct (getDerivedStateFromProps_inv _ _ _ _ _ _ Hd)
    as (progress & scenes & _ & _ & _ & Hus & _ & _ & _ & _ & Hlen & _).
  split.
  - intros f Hf _ _ Hvalid. apply render_total; [| | done].
    + rewrite Hf. by eexists.
    + unfold StateUpdate.merge. cbn. rewrite Hus. cbn. lia.
  - intros Hf. unfold Stack.render. by rewrite Hf.
Qed.

Lemma render_after_derivation_witness :
  (exists u h' out,
     Stack.getDerivedStateFromProps (Sample.imports "ios") Sample.props2
       (Component.state (Sample.mounted "ios" Sample.props1))
       (Component.heap (Sample.mounted "ios" Sample.props1)) = (Some u, h') /\
     Stack.render (Sample.imports "ios") Sample.props2
       (StateUpdate.merge
          (Component.state (Sample.mounted "ios" Sample.props1)) u)
     = Normal out) /\
  (exists u h',
     Stack.getDerivedStateFromProps (Sample.imports "ios") MoreSamples.props7
       (Component.state (Sample.mounted "ios" Sample.props2))
       (Component.heap (Sample.mounted "ios" Sample.props2)) = (Some u, h') /\
     Stack.render (Sample.imports "ios") MoreSamples.props7
       (StateUpdate.merge
          (Component.state (Sample.mounted "ios" Sample.props2)) u)
     = TypeError).
Proof.
  split.
  - destruct (Stack.getDerivedStateFromProps (Sample.imports "ios")
                Sample.props2
                (Component.state (Sample.mounted "ios" Sample.props1))
                (Component.heap (Sample.mounted "ios" Sample.props1)))
      as [[u |] h'] eqn:Hd; [| vm_compute in Hd; discriminate].
    destruct (proj1 (render_after_derivation _ _ _ _ _ _ Hd) Sample.C)
      as [out Hout].
    + vm_compute. reflexivity.
    + vm_compute. reflexivity.
    + vm_compute. reflexivity.
    + right. intros o. reflexivity.
    + exists u, h', out. split; [reflexivity | exact Hout].
  - destruct (Stack.getDerivedStateFromProps (Sample.imports "ios")
                MoreSamples.props7
                (Component.state (Sample.mounted "ios" Sample.props2))
                (Component.heap (Sample.mounted "ios" Sample.props2)))
      as [[u |] h'] eqn:Hd; [| vm_compute in Hd; discriminate].
    exists u, h'. split; [reflexivity |].
    exact (proj2 (render_after_derivation _ _ _ _ _ _ Hd) eq_refl).
Defined.

Lemma render_throws_when_witness :
  Stack.render (Sample.imports "ios") Sample.props5
    (Component.state (Sample.mounted "ios" Sample.props2)) = TypeError.
Proof.
  apply (render_throws_when (Sample.imports "ios") Sample.props5
           (Component.state (Sample.mounted "ios" Sample.props2))).
  right. left. vm_compute. lia.
Defined.

(** ** The screens of a render *)

(** X9. A render that completes emits one screen per route, keyed by the
    route keys in the order of the route list; the screen at an index
    carries that index, the scene stored at that index, the progress value
    of its route key and the stored header height of that key, and is the
    active item exactly when it is the last. *)
Theorem screens_follow_routes (I : Imports) (props : Props.t)
    (state : State.t) (out : Rendered.t) :
  Stack.render I props state = Normal out ->
  let routes := Routes.items (Props.routes props) in
  MaybeScreen.key <$> Rendered.screens out = keys routes /\
  forall i m, Rendered.screens out !! i = Some m ->
    let item := MaybeScreen.children m in
    StackItem.index item = i /\
    State.scenes state !! i = Some (StackItem.scene item) /\
    StackItem.current item = State.progress state !! MaybeScreen.key m /\
    StackItem.floatingHeaderHeight item
      = State.floatingHeaderHeights state !! MaybeScreen.key m /\
    (StackItem.active item = true <-> S i = length routes).
Proof.
  intros Hr routes.
  destruct (render_inv _ _ _ _ Hr) as (f & _ & Hlen & Hscreens & _).
  fold routes in Hlen, Hscreens. split.
  - apply list_eq. intros i. unfold keys. rewrite !list_lookup_fmap.
    destruct (routes !! i) as [r |] eqn:Hi.
    + destruct (Hscreens i r Hi) as (m & -> & Hrr). cbn.
      unfold Stack.renderRoute in Hrr.
      destruct (State.scenes state !! i); [| discriminate]. validated Hrr.
      by inversion Hrr.
    + apply lookup_ge_None in Hi.
      by rewrite (proj2 (lookup_ge_None _ i)) by lia.
  - intros i m Hm item. subst item.
    destruct (render_screen _ _ _ _ _ _ Hr Hm) as (f' & r & sc & Hi & Hsc & Hrr).
    unfold Stack.renderRoute in Hrr. rewrite Hsc in Hrr. validated Hrr.
    inversion Hrr; subst m; clear Hrr. cbn.
    split; [done |]. split; [done |]. split; [done |]. split; [done |].
    fold routes. rewrite index_is_last. apply bool_decide_eq_true.
Qed.

Lemma screens_follow_routes_witness :
  exists out,
    Stack.render (Sample.imports "ios") Sample.props2
      (Component.state (Sample.mounted "ios" Sample.props2)) = Normal out /\
    MaybeScreen.key <$> Rendered.screens out = ["A"; "B"; "C"].
Proof.
  destruct (Stack.render (Sample.imports "ios") Sample.props2
              (Component.state (Sample.mounted "ios" Sample.props2)))
    as [out |] eqn:Hout; [| vm_compute in Hout; discriminate].
  exists out. split; [reflexivity |].
  exact (proj1 (screens_follow_routes _ _ _ _ Hout)).
Defined.

(** X10. The screen of the last route is emitted with the transition spec
    and the card and header interpolators of its own options, an unset one
    giving the value of the preset of the mode; with the header mode
    ['screen'] an unset header interpolator gives [forNoAnimation]. *)
Theorem top_screen_own_transition (I : Imports) (props : Props.t)
    (state : State.t) (out : Rendered.t) (i : nat) (m : MaybeScreen.props)
    (scene : Scene.t) :
  Stack.render I props state = Normal out ->
  Rendered.screens out !! i = Some m ->
  S i = length (Routes.items (Props.routes props)) ->
  State.scenes state !! i = Some scene ->
  let modePreset :=
    match Props.mode props with
    | modal => ModalTransition I
    | card => DefaultTransition I
    end in
  let own := Stack.optionsOf (Scene.descriptor scene) in
  let item := MaybeScreen.children m in
  StackItem.transitionSpec item =
    or_default (Options.transitionSpec own)
      (TransitionPreset.transitionSpec modePreset) /\
  StackItem.cardStyleInterpolator item =
    or_default (Options.cardStyleInterpolator own)
      (TransitionPreset.cardStyleInterpolator modePreset) /\
  StackItem.headerStyleInterpolator item =
    or_default (Options.headerStyleInterpolator own)
      (if String.eqb (Props.headerMode props) "screen"
       then forNoAnimation I
       else TransitionPreset.headerStyleInterpolator modePreset).
Proof.
  intros Hr Hm Hlast Hscene modePreset own item.
  destruct (render_screen _ _ _ _ _ _ Hr Hm) as (f & r & sc & Hi & Hsc & Hrr).
  unfold Stack.renderRoute in Hrr. rewrite Hscene in Hrr. validated Hrr.
  rewrite index_is_last, bool_decide_eq_true_2 in Hrr by done.
  inversion Hrr; subst m; clear Hrr. subst item own modePreset. cbn.
  unfold Stack.defaultTransitionPreset.
  by destruct (String.eqb (Props.headerMode props) "screen").
Qed.

Lemma top_screen_own_transition_witness :
  exists out m,
    Stack.render (Sample.imports "ios") MoreSamples.props8
      (Component.state (Sample.mounted "ios" MoreSamples.props8))
    = Normal out /\
    Rendered.screens out !! 1%nat = Some m /\
    StackItem.transitionSpec (MaybeScreen.children m) = 51%nat /\
    StackItem.cardStyleInterpolator (MaybeScreen.children m) = 12%nat /\
    StackItem.headerStyleInterpolator (MaybeScreen.children m) = 53%nat.
Proof.
  destruct (Stack.render (Sample.imports "ios") MoreSamples.props8
              (Component.state (Sample.mounted "ios" MoreSamples.props8)))
    as [out |] eqn:Hout; [| vm_compute in Hout; discriminate].
  destruct (Rendered.screens out !! 1%nat) as [m |] eqn:Hm;
    [| vm_compute in Hout; inversion Hout; subst out; discriminate Hm].
  exists out, m. split; [reflexivity |]. split; [exact Hm |].
  destruct (State.scenes
              (Component.state (Sample.mounted "ios" MoreSamples.props8))
              !! 1%nat) as [scene |] eqn:Hsc; [| vm_compute in Hsc; discriminate].
  pose proof (top_screen_own_transition _ _ _ _ 1%nat m scene Hout Hm
                eq_refl Hsc) as Hthm.
  vm_compute in Hsc. inversion Hsc; subst scene. exact Hthm.
Defined.

(** X11. The container and the screens are native together or plain
    together: every screen of a render is an [AnimatedScreen] when the
    container is a [ScreenContainer], and a plain view when it is a plain
    view. They are native exactly when the platform is not iOS, the mode is
    not modal and the screens library is enabled; otherwise the activation
    value computed for a screen reaches no native view. *)
Theorem screens_native_with_container (I : Imports) (props : Props.t)
    (state : State.t) (out : Rendered.t) :
  Stack.render I props state = Normal out ->
  let native :=
    negb (String.eqb (Platform_OS I) "ios")
    && match Props.mode props with modal => false | card => true end
    && Screens_screensEnabled I in
  renderContainer I props =
    (if native then MaybeScreenContainer.ScreenContainer
     else MaybeScreenContainer.View) /\
  forall i m, Rendered.screens out !! i = Some m ->
    MaybeScreen.render I m =
    if native
    then MaybeScreen.AnimatedScreen (MaybeScreen.active m)
           (MaybeScreen.children m)
    else MaybeScreen.View (MaybeScreen.children m).
Proof.
  intros Hr native. split; [done |]. intros i m Hm.
  destruct (render_screen _ _ _ _ _ _ Hr Hm) as (f & r & sc & Hi & Hsc & Hrr).
  unfold Stack.renderRoute in Hrr. rewrite Hsc in Hrr. validated Hrr.
  inversion Hrr; subst m; clear Hrr. by unfold MaybeScreen.render.
Qed.

Lemma screens_native_with_container_witness :
  exists out,
    Stack.render (Sample.imports "android") MoreSamples.modalProps
      (Component.state (Sample.mounted "android" MoreSamples.modalProps))
    = Normal out /\
    renderContainer (Sample.imports "android") MoreSamples.modalProps
    = MaybeScreenContainer.View.
Proof.
  destruct (Stack.render (Sample.imports "android") MoreSamples.modalProps
              (Component.state
                 (Sample.mounted "android" MoreSamples.modalProps)))
    as [out |] eqn:Hout; [| vm_compute in Hout; discriminate].
  exists out. split; [reflexivity |].
  exact (proj1 (screens_native_with_container _ _ _ _ Hout)).
Defined.

(** X12. In a heap that holds a number for the progress value of every
    route of the list, the activation of every screen of a render evaluates
    to 0 or to 1, on every platform. *)
Theorem activation_is_zero_or_one (I : Imports) (props : Props.t)
    (state : State.t) (out : Rendered.t) (vs : gmap loc Qc) :
  Stack.render I props state = Normal out ->
  (forall K, K ∈ keys (Routes.items (Props.routes props)) ->
     exists v, State.progress state !! K = Some v /\ is_Some (vs !! v)) ->
  forall i m, Rendered.screens out !! i = Some m ->
    eval vs (MaybeScreen.active m) = Some 0%Qc \/
    eval vs (MaybeScreen.active m) = Some 1%Qc.
Proof.
  intros Hr Hcells i m Hm.
  rewrite (render_active _ _ _ _ _ _ Hr Hm).
  destruct (render_screen _ _ _ _ _ _ Hr Hm) as (f & r & sc & Hi & _ & _).
  unfold Stack.isScreenActive. rewrite index_is_last, index_is_second_last.
  case_bool_decide as Hlast; [by right |].
  destruct (String.eqb (Platform_OS I) "android").
  - assert (is_Some (Routes.items (Props.routes props) !! S i)) as [r' Hr'].
    { apply lookup_lt_is_Some. apply lookup_lt_Some in Hi. lia. }
    destruct (Hcells (key r')) as (v & Hv & [x Hx]).
    { apply list_elem_of_fmap. exists r'. split; [done |].
      by eapply list_elem_of_lookup_2. }
    unfold Stack.nextProgress. replace (i + 1)%nat with (S i) by lia.
    rewrite Hr', Hv, (eval_active_condition vs v x Hx).
    destruct (decide (x = 1%Qc)); [by left | by right].
  - case_bool_decide; [by right | by left].
Qed.

Lemma activation_is_zero_or_one_witness :
  exists out m,
    Stack.render (Sample.imports "android") Sample.props5
      (Component.state (Sample.mounted "android" Sample.props5)) = Normal out /\
    Rendered.screens out !! 1%nat = Some m /\
    (eval (values (Component.heap (Sample.mounted "android" Sample.props5)))
       (MaybeScreen.active m) = Some 0%Qc \/
     eval (values (Component.heap (Sample.mounted "android" Sample.props5)))
       (MaybeScreen.active m) = Some 1%Qc).
Proof.
  destruct (Stack.render (Sample.imports "android") Sample.props5
              (Component.state (Sample.mounted "android" Sample.props5)))
    as [out |] eqn:Hout; [| vm_compute in Hout; discriminate].
  destruct (Rendered.screens out !! 1%nat) as [m |] eqn:Hm;
    [| vm_compute in Hout; inversion Hout; subst out; discriminate Hm].
  exists out, m. split; [reflexivity |]. split; [exact Hm |].
  apply (activation_is_zero_or_one _ _ _ _ _ Hout) with (i := 1%nat);
    [| exact Hm].
  intros K HK. apply list_elem_of_In in HK. vm_compute in HK.
  destruct HK as [<- | [<- | [<- | [<- | []]]]];
    eexists; (split; [vm_compute; reflexivity | vm_compute; by eexists]).
Defined.

(** ** Header heights across derivations and reports *)

Lemma number_or_idem (a : option Qc) (d : Qc) :
  number_or (Some (number_or a d)) d = number_or a d.
Proof.
  unfold number_or. destruct a as [x |].
  - destruct (number_truthy x) eqn:Hx; rewrite ?Hx; [done |].
    by destruct (number_truthy d).
  - by destruct (number_truthy d).
Qed.

(** X13. A derivation that recomputes the state keeps, for every route of
    the new list whose key is not a property name of [Object.prototype], the
    height stored for its key when that is a non-zero number, and gives it
    otherwise the default height for the layout the state holds and the
    insets of the new props; such keys that are not in the new list have no
    height any more, and the layout stays. *)
Theorem heights_after_derivation (I : Imports) (props : Props.t)
    (state : State.t) (h : Heap) (u : StateUpdate.t) (h' : Heap) :
  Stack.getDerivedStateFromProps I props state h = (Some u, h') ->
  let state' := StateUpdate.merge state u in
  let routes := Routes.items (Props.routes props) in
  let defaultHeight :=
    getDefaultHeaderHeight I (State.layout state) (Props.insets props) in
  State.layout state' = State.layout state /\
  forall k,
    plainKey k = true ->
    (k ∉ keys routes -> State.floatingHeaderHeights state' !! k = None) /\
    (k ∈ keys routes ->
     forall x, State.floatingHeaderHeights state !! k = Some x -> x <> 0%Qc ->
       State.floatingHeaderHeights state' !! k = Some x) /\
    (k ∈ keys routes ->
     State.floatingHeaderHeights state !! k = None
     \/ State.floatingHeaderHeights state !! k = Some 0%Qc ->
     State.floatingHeaderHeights state' !! k = Some defaultHeight).
Proof.
  intros Hd state' routes defaultHeight.
  destruct (Stack.sameInputs props state) eqn:Hs.
  { rewrite getDerivedStateFromProps_null in Hd by done. discriminate. }
  destruct (getDerivedStateFromProps_some I props state h Hs)
    as (progress & h1 & scenes & h2 & _ & _ & Hd').
  rewrite Hd' in Hd. inversion Hd; subst u h'; clear Hd Hd'.
  split; [done |]. intros k _. unfold state', StateUpdate.merge. cbn.
  rewrite getFloatingHeaderHeights_lookup. fold routes. split; [| split].
  - intros HK. by rewrite decide_False.
  - intros HK x Hx Hnz. rewrite decide_True by done. rewrite Hx. cbn.
    apply number_truthy_nonzero in Hnz. by rewrite Hnz.
  - intros HK [Hx | Hx]; rewrite decide_True by done; by rewrite Hx.
Qed.

Lemma heights_after_derivation_witness :
  exists u h',
    Stack.getDerivedStateFromProps (Sample.imports "ios") Sample.props3
      (StateUpdate.merge
         (Component.state (Sample.mounted "ios" Sample.props2))
         (StateUpdate.mk None None None None None
            (Some (<["C" := Q2Qc 70]>
                     (State.floatingHeaderHeights
                        (Component.state
                           (Sample.mounted "ios" Sample.props2)))))))
      (Component.heap (Sample.mounted "ios" Sample.props2)) = (Some u, h') /\
    default ∅ (StateUpdate.floatingHeaderHeights u) !! "C" = Some (Q2Qc 70) /\
    default ∅ (StateUpdate.floatingHeaderHeights u) !! "B" = None.
Proof.
  destruct (Stack.getDerivedStateFromProps (Sample.imports "ios") Sample.props3
              (StateUpdate.merge
                 (Component.state (Sample.mounted "ios" Sample.props2))
                 (StateUpdate.mk None None None None None
                    (Some (<["C" := Q2Qc 70]>
                             (State.floatingHeaderHeights
                                (Component.state
                                   (Sample.mounted "ios" Sample.props2)))))))
              (Component.heap (Sample.mounted "ios" Sample.props2)))
    as [[u |] h'] eqn:Hd; [| vm_compute in Hd; discriminate].
  exists u, h'. split; [reflexivity |].
  destruct (heights_after_derivation _ _ _ _ _ _ Hd) as [_ Hk].
  destruct (Hk "C" eq_refl) as (_ & HC & _).
  destruct (Hk "B" eq_refl) as (HB & _).
  assert (forall k, State.floatingHeaderHeights
                      (StateUpdate.merge
                         (StateUpdate.merge
                            (Component.state
                               (Sample.mounted "ios" Sample.props2))
                            (StateUpdate.mk None None None None None
                               (Some (<["C" := Q2Qc 70]>
                                        (State.floatingHeaderHeights
                                           (Component.state
                                              (Sample.mounted "ios"
                                                 Sample.props2)))))))
                         u) !! k
                    = default ∅ (StateUpdate.floatingHeaderHeights u) !! k)
    as Hsame.
  { intros k. vm_compute in Hd. inversion Hd; subst u. reflexivity. }
  rewrite <- !Hsame. split.
  - apply HC; [has_key | reflexivity | discriminate].
  - apply HB. intros Hin. apply list_elem_of_In in Hin. vm_compute in Hin.
    destruct Hin as [Hin | [Hin | []]]; discriminate.
Defined.

(** X14. Heights computed for a route list and computed again for a list
    whose keys are among the first one's are the heights computed for the
    second list at once: deriving through an intermediate route list loses
    no stored height of a route that stays. *)
Theorem getFloatingHeaderHeights_twice (I : Imports)
    (routes routes' : list NavigationRoute) (insets : option EdgeInsets)
    (layout : Layout) (previous : gmap string Qc) :
  (forall k, k ∈ keys routes' -> k ∈ keys routes) ->
  getFloatingHeaderHeights I routes' insets layout
    (getFloatingHeaderHeights I routes insets layout previous)
  = getFloatingHeaderHeights I routes' insets layout previous.
Proof.
  intros Hsub. apply map_eq. intros k.
  rewrite !getFloatingHeaderHeights_lookup.
  destruct (decide (k ∈ keys routes')) as [HK | HK]; [| done].
  rewrite decide_True by by apply Hsub. by rewrite number_or_idem.
Qed.

Lemma getFloatingHeaderHeights_twice_witness :
  getFloatingHeaderHeights (Sample.imports "ios") [Sample.A; Sample.C]
    Sample.insets Sample.window
    (getFloatingHeaderHeights (Sample.imports "ios")
       [Sample.A; Sample.B; Sample.C] Sample.insets Sample.window
       {[ "C" := Q2Qc 70 ]})
  = getFloatingHeaderHeights (Sample.imports "ios") [Sample.A; Sample.C]
      Sample.insets Sample.window {[ "C" := Q2Qc 70 ]}.
Proof.
  apply getFloatingHeaderHeights_twice.
  intros k Hk. apply list_elem_of_In in Hk. vm_compute in Hk.
  destruct Hk as [<- | [<- | []]]; has_key.
Defined.

(** X15. A height report that is applied makes the same report a no-op,
    provided the height is a finite number other than 0: of two equal
    reports in a row only the first one updates the state. ([NaN], which
    [===] never finds equal to itself, is not a [number] of this
    development.) *)
Theorem header_height_report_once (this : State.t) (route : NavigationRoute)
    (H : Qc) (f : State.t -> StateUpdate.t) :
  Stack.handleFloatingHeaderLayout this route H = Some f ->
  H <> 0%Qc ->
  Stack.handleFloatingHeaderLayout (StateUpdate.merge this (f this)) route H
  = None.
Proof.
  intros Hf Hnz. unfold Stack.handleFloatingHeaderLayout in Hf.
  case_match; [discriminate |]. inversion Hf; subst f.
  unfold Stack.handleFloatingHeaderLayout, StateUpdate.merge. cbn.
  rewrite lookup_insert_eq. apply number_truthy_nonzero in Hnz.
  by rewrite Hnz, number_eqb_refl.
Qed.

Lemma header_height_report_once_witness :
  exists f,
    Stack.handleFloatingHeaderLayout
      (Component.state (Sample.mounted "ios" Sample.props2)) Sample.B (Q2Qc 70)
    = Some f /\
    Stack.handleFloatingHeaderLayout
      (StateUpdate.merge (Component.state (Sample.mounted "ios" Sample.props2))
         (f (Component.state (Sample.mounted "ios" Sample.props2))))
      Sample.B (Q2Qc 70) = None.
Proof.
  destruct (Stack.handleFloatingHeaderLayout
              (Component.state (Sample.mounted "ios" Sample.props2))
              Sample.B (Q2Qc 70)) as [f |] eqn:Hf;
    [| vm_compute in Hf; discriminate].
  exists f. split; [reflexivity |].
  apply (header_height_report_once _ _ _ f Hf). discriminate.
Defined.

(** X16. A container layout report that is applied makes the same report a
    no-op, for any finite dimensions, zero included: the comparison of
    [handleLayout] is on the numbers, not on their truthiness. ([NaN],
    which [===] never finds equal to itself, is not a [number] of this
    development.) *)
Theorem layout_report_once (I : Imports) (props : Props.t) (state : State.t)
    (e : Layout) (u : StateUpdate.t) :
  Stack.handleLayout I props state e = Some u ->
  Stack.handleLayout I props (StateUpdate.merge state u) e = None.
Proof.
  intros Hu. unfold Stack.handleLayout in Hu.
  case_match; [discriminate |]. inversion Hu; subst u.
  unfold Stack.handleLayout, StateUpdate.merge. cbn.
  by rewrite !number_eqb_refl.
Qed.

Lemma layout_report_once_witness :
  exists u,
    Stack.handleLayout (Sample.imports "ios") Sample.props2
      (Component.state (Sample.mounted "ios" Sample.props2))
      (mkLayout 0%Qc 0%Qc) = Some u /\
    Stack.handleLayout (Sample.imports "ios") Sample.props2
      (StateUpdate.merge (Component.state (Sample.mounted "ios" Sample.props2))
         u)
      (mkLayout 0%Qc 0%Qc) = None.
Proof.
  destruct (Stack.handleLayout (Sample.imports "ios") Sample.props2
              (Component.state (Sample.mounted "ios" Sample.props2))
              (mkLayout 0%Qc 0%Qc)) as [u |] eqn:Hu;
    [| vm_compute in Hu; discriminate].
  exists u. split; [reflexivity |].
  exact (layout_report_once _ _ _ _ u Hu).
Defined.

(** * The header segment *)

(** ** Title and left label measurements *)

Lemma same_layout_iff (e l : Layout) :
  number_eqb (height e) (height l) && number_eqb (width e) (width l) = true
  <-> l = e.
Proof.
  rewrite andb_true_iff, !number_eqb_eq. destruct e, l; cbn. split.
  - by intros [-> ->].
  - by intros [= -> ->].
Qed.

(** X17. For measurements with finite dimensions (zero included; [NaN] is
    not a [number] of this development): a title measurement is dropped
    exactly when the state holds a title layout of the same dimensions;
    otherwise it becomes the title layout, the left label layout is not
    touched, and the same measurement coming again is dropped. The left
    label measurement behaves the same way on its own field. *)
Theorem segment_layout_reports (state : HeaderSegment.State) (e : Layout) :
  (HeaderSegment.handleTitleLayout state e = None <->
   HeaderSegment.titleLayout state = Some e) /\
  (forall u, HeaderSegment.handleTitleLayout state e = Some u ->
     let state' := HeaderSegment.setState state u in
     HeaderSegment.titleLayout state' = Some e /\
     HeaderSegment.leftLabelLayout state' = HeaderSegment.leftLabelLayout state /\
     HeaderSegment.handleTitleLayout state' e = None) /\
  (HeaderSegment.handleLeftLabelLayout state e = None <->
   HeaderSegment.leftLabelLayout state = Some e) /\
  (forall u, HeaderSegment.handleLeftLabelLayout state e = Some u ->
     let state' := HeaderSegment.setState state u in
     HeaderSegment.leftLabelLayout state' = Some e /\
     HeaderSegment.titleLayout state' = HeaderSegment.titleLayout state /\
     HeaderSegment.handleLeftLabelLayout state' e = None).
Proof.
  assert (Hsame : forall l : Layout,
            number_eqb (height l) (height l) && number_eqb (width l) (width l)
            = true) by (intros l; by rewrite !number_eqb_refl).
  unfold HeaderSegment.handleTitleLayout, HeaderSegment.handleLeftLabelLayout.
  split; [| split; [| split]].
  - destruct (HeaderSegment.titleLayout state) as [l |]; [| done].
    destruct (number_eqb (height e) (height l)
              && number_eqb (width e) (width l)) eqn:Heq.
    + apply same_layout_iff in Heq. by subst l.
    + split; [done |]. intros [= ->]. by rewrite Hsame in Heq.
  - intros u Hu. case_match; [discriminate |]. inversion Hu; subst u. cbn.
    destruct e as [w hh]. cbn. split; [done |]. split; [done |].
    by rewrite !number_eqb_refl.
  - destruct (HeaderSegment.leftLabelLayout state) as [l |]; [| done].
    destruct (number_eqb (height e) (height l)
              && number_eqb (width e) (width l)) eqn:Heq.
    + apply same_layout_iff in Heq. by subst l.
    + split; [done |]. intros [= ->]. by rewrite Hsame in Heq.
  - intros u Hu. case_match; [discriminate |]. inversion Hu; subst u. cbn.
    destruct e as [w hh]. cbn. split; [done |]. split; [done |].
    by rewrite !number_eqb_refl.
Qed.

Lemma segment_layout_reports_witness :
  exists u,
    HeaderSegment.handleTitleLayout
      (HeaderSegment.mkState None (Some Sample.window)) (mkLayout 0%Qc 0%Qc)
    = Some u /\
    HeaderSegment.handleTitleLayout
      (HeaderSegment.setState
         (HeaderSegment.mkState None (Some Sample.window)) u)
      (mkLayout 0%Qc 0%Qc) = None.
Proof.
  destruct (HeaderSegment.handleTitleLayout
              (HeaderSegment.mkState None (Some Sample.window))
              (mkLayout 0%Qc 0%Qc)) as [u |] eqn:Hu;
    [| vm_compute in Hu; discriminate].
  exists u. split; [reflexivity |].
  exact (proj2 (proj2 (proj1 (proj2
           (segment_layout_reports
              (HeaderSegment.mkState None (Some Sample.window))
              (mkLayout 0%Qc 0%Qc))) u Hu))).
Defined.

(** ** The header style *)

Lemma includes_elem_of (ks : list string) (k : string) :
  HeaderSegment.includes ks k = true <-> k ∈ ks.
Proof.
  unfold HeaderSegment.includes. rewrite existsb_exists, list_elem_of_In.
  split.
  - intros (x & Hx & Heq). apply String.eqb_eq in Heq. by subst.
  - intros Hin. exists k. split; [done | apply String.eqb_refl].
Qed.

Lemma get_elem_of (style : HeaderSegment.ViewStyle) (k : string)
    (v : HeaderSegment.StyleValue) :
  HeaderSegment.get style k = Some v -> (k, Some v) ∈ style.
Proof.
  induction style as [| [k' o] rest IH]; [done |]. cbn.
  destruct (String.eqb_spec k' k) as [-> | Hne].
  - intros ->. apply elem_of_cons. by left.
  - intros Hg. apply elem_of_cons. right. by apply IH.
Qed.

Lemma elem_of_get (style : HeaderSegment.ViewStyle) (k : string)
    (o : option HeaderSegment.StyleValue) :
  NoDup (fst <$> style) -> (k, o) ∈ style -> HeaderSegment.get style k = o.
Proof.
  induction style as [| [k' o'] rest IH]; intros Hnd Hin.
  - by apply elem_of_nil in Hin.
  - cbn in Hnd. apply NoDup_cons in Hnd as [Hfresh Hnd]. cbn.
    apply elem_of_cons in Hin as [[= -> ->] | Hin].
    + by rewrite String.eqb_refl.
    + destruct (String.eqb_spec k' k) as [-> | Hne]; [| by apply IH].
      exfalso. apply Hfresh. apply list_elem_of_fmap. by exists (k, o).
Qed.

Lemma warning_of_entry (styles : HeaderSegment.ViewStyle) (k : string)
    (v : HeaderSegment.StyleValue) :
  (k, Some v) ∈ styles ->
  (k = "position" /\ v = HeaderSegment.StyleString "absolute" /\
   HeaderSegment.PositionAbsolute
     ∈ HeaderSegment.warnIfHeaderStylesDefined styles)
  \/ HeaderSegment.NoEffect k v
       ∈ HeaderSegment.warnIfHeaderStylesDefined styles.
Proof.
  intros Hin. unfold HeaderSegment.warnIfHeaderStylesDefined.
  destruct (String.eqb k "position"
            && match v with
               | HeaderSegment.StyleString s => String.eqb s "absolute"
               | _ => false
               end) eqn:Htest.
  - left. apply andb_prop in Htest as [Hk Hv]. apply String.eqb_eq in Hk.
    destruct v as [| n | s | a]; try discriminate. apply String.eqb_eq in Hv.
    subst. split; [done |]. split; [done |].
    apply list_elem_of_In, in_flat_map.
    exists ("position", Some (HeaderSegment.StyleString "absolute")).
    split; [by apply list_elem_of_In |]. cbn. by left.
  - right. apply list_elem_of_In, in_flat_map. exists (k, Some v).
    split; [by apply list_elem_of_In |]. cbn. rewrite Htest. by left.
Qed.

(** X18. In a development build, an entry of the flattened header style
    whose value is not [undefined] is one of height, minHeight and
    maxHeight, or it is an entry of [safeStyles] with the same value, or
    [warnIfHeaderStylesDefined] issues a warning for it, the one about
    [position: 'absolute'] or the one that names the property and its
    value. *)
Theorem defined_style_is_used_or_warned (style : HeaderSegment.ViewStyle)
    (k : string) (v : HeaderSegment.StyleValue) :
  NoDup (fst <$> style) ->
  (k, Some v) ∈ style ->
  k ∈ HeaderSegment.sizeKeys
  \/ (k, Some v) ∈ HeaderSegment.safeStyles style
  \/ (k = "position" /\ v = HeaderSegment.StyleString "absolute" /\
      HeaderSegment.PositionAbsolute ∈ HeaderSegment.renderWarnings false style)
  \/ HeaderSegment.NoEffect k v ∈ HeaderSegment.renderWarnings false style.
Proof.
  intros Hnd Hin.
  destruct (decide (k ∈ HeaderSegment.sizeKeys)) as [Hsize | Hsize];
    [by left |].
  right.
  destruct (decide (k ∈ HeaderSegment.safeKeys)) as [Hsafe | Hsafe].
  - left. unfold HeaderSegment.safeStyles.
    apply list_elem_of_In, filter_In. split; [| done].
    apply in_map_iff. exists k. split; [| by apply list_elem_of_In].
    by rewrite (elem_of_get style k (Some v) Hnd Hin).
  - right. unfold HeaderSegment.renderWarnings.
    apply (warning_of_entry (HeaderSegment.unsafeStyles style)).
    unfold HeaderSegment.unsafeStyles. apply list_elem_of_In, filter_In.
    split; [by apply list_elem_of_In |].
    change (negb (HeaderSegment.includes
                    (HeaderSegment.sizeKeys ++ HeaderSegment.safeKeys) k)
            = true).
    apply negb_true_iff.
    destruct (HeaderSegment.includes
                (HeaderSegment.sizeKeys ++ HeaderSegment.safeKeys) k)
      eqn:Hinc; [| done].
    apply includes_elem_of, elem_of_app in Hinc. tauto.
Qed.

Lemma defined_style_is_used_or_warned_witness :
  HeaderSegment.NoEffect "flex" (HeaderSegment.StyleNumber 1%Qc)
    ∈ HeaderSegment.renderWarnings false MoreSamples.style.
Proof.
  destruct (defined_style_is_used_or_warned MoreSamples.style "flex"
              (HeaderSegment.StyleNumber 1%Qc))
    as [Hsize | [Hsafe | [(Hk & _) | Hwarn]]].
  - vm_compute. repeat constructor; intros Hin; apply list_elem_of_In in Hin;
      vm_compute in Hin; intuition discriminate.
  - apply list_elem_of_In. vm_compute. auto 10.
  - exfalso. apply list_elem_of_In in Hsize. vm_compute in Hsize.
    intuition discriminate.
  - exfalso. apply list_elem_of_In in Hsafe. vm_compute in Hsafe.
    intuition discriminate.
  - discriminate Hk.
  - exact Hwarn.
Defined.

(** X19. What is copied into the styles of the background has a value and a
    supported name: every entry of [safeStyles] is one of the keys of the
    object literal, with the value the header style has for it, and none is
    [undefined]. *)
Theorem safe_styles_are_defined (style : HeaderSegment.ViewStyle)
    (k : string) (o : option HeaderSegment.StyleValue) :
  (k, o) ∈ HeaderSegment.safeStyles style ->
  k ∈ HeaderSegment.safeKeys /\
  exists v, o = Some v /\ (k, Some v) ∈ style.
Proof.
  unfold HeaderSegment.safeStyles. intros Hin.
  apply list_elem_of_In, filter_In in Hin as [Hin Hdef].
  apply in_map_iff in Hin as (k' & [= -> <-] & Hk).
  split; [by apply list_elem_of_In |].
  cbn in Hdef. destruct (HeaderSegment.get style k) as [v |] eqn:Hg;
    [| discriminate].
  exists v. split; [done |]. by apply get_elem_of.
Qed.

Lemma safe_styles_are_defined_witness :
  exists v,
    Some (HeaderSegment.StyleString "red") = Some v /\
    ("backgroundColor", Some v) ∈ MoreSamples.style.
Proof.
  apply (safe_styles_are_defined MoreSamples.style "backgroundColor"
           (Some (HeaderSegment.StyleString "red"))).
  apply list_elem_of_In. vm_compute. auto.
Defined.

(** X20. [render] issues no warning in a production build; in a
    development build it issues none exactly when every property of the
    header style that has a value is one the component supports (the three
    size keys and the keys of the background styles). *)
Theorem no_warning_iff_supported (style : HeaderSegment.ViewStyle) :
  HeaderSegment.renderWarnings true style = [] /\
  (HeaderSegment.renderWarnings false style = [] <->
   forall k v, (k, Some v) ∈ style ->
     k ∈ (HeaderSegment.sizeKeys ++ HeaderSegment.safeKeys)%list).
Proof.
  split; [done |]. unfold HeaderSegment.renderWarnings. split.
  - intros Hnone k v Hin.
    destruct (decide (k ∈ (HeaderSegment.sizeKeys ++ HeaderSegment.safeKeys)%list))
      as [Hk | Hk]; [done |].
    exfalso.
    assert ((k, Some v) ∈ HeaderSegment.unsafeStyles style) as Hunsafe.
    { unfold HeaderSegment.unsafeStyles. apply list_elem_of_In, filter_In.
      split; [by apply list_elem_of_In |].
      change (negb (HeaderSegment.includes
                      (HeaderSegment.sizeKeys ++ HeaderSegment.safeKeys) k)
              = true).
      apply negb_true_iff.
      destruct (HeaderSegment.includes
                  (HeaderSegment.sizeKeys ++ HeaderSegment.safeKeys) k)
        eqn:Hinc; [| done].
      by apply includes_elem_of in Hinc. }
    destruct (warning_of_entry _ _ _ Hunsafe) as [(_ & _ & Hw) | Hw];
      rewrite Hnone in Hw; by apply elem_of_nil in Hw.
  - intros Hall. induction style as [| [k o] rest IH]; [done |].
    unfold HeaderSegment.unsafeStyles. cbn [List.filter fst].
    fold (HeaderSegment.unsafeStyles rest).
    assert (HeaderSegment.warnIfHeaderStylesDefined
              (HeaderSegment.unsafeStyles rest) = []) as Hrest.
    { apply IH. intros k' v' Hin. apply (Hall k' v').
      apply elem_of_cons. by right. }
    destruct (HeaderSegment.includes
                (HeaderSegment.sizeKeys ++ HeaderSegment.safeKeys) k)
      eqn:Hinc; cbn [negb]; [exact Hrest |].
    unfold HeaderSegment.warnIfHeaderStylesDefined. cbn [flat_map snd].
    fold (HeaderSegment.warnIfHeaderStylesDefined
            (HeaderSegment.unsafeStyles rest)).
    rewrite Hrest. destruct o as [v |]; [| done].
    exfalso. assert (HeaderSegment.includes
                       (HeaderSegment.sizeKeys ++ HeaderSegment.safeKeys) k
                     = true) as Hyes.
    { apply includes_elem_of. apply (Hall k v). apply elem_of_cons. by left. }
    congruence.
Qed.

Lemma no_warning_iff_supported_witness :
  HeaderSegment.renderWarnings false
    [("height", Some (HeaderSegment.StyleNumber (Q2Qc 80)));
     ("opacity", Some (HeaderSegment.StyleNumber 1%Qc));
     ("position", None)] = [].
Proof.
  apply (proj2 (proj2 (no_warning_iff_supported _))).
  intros k v Hin. apply list_elem_of_In in Hin. vm_compute in Hin.
  destruct Hin as [[= <- <-] | [[= <- <-] | [[=] | []]]];
    apply list_elem_of_In; vm_compute; auto 40.
Defined.

(** * Scene objects *)

Lemma derive_scenes_allocated I props state h :
  scenes_allocated (State.scenes state) h ->
  scenes_allocated (State.scenes (Stack.derive I props state h).1)
    (Stack.derive I props state h).2.
Proof.
  intros [Hbound Hdistinct].
  destruct (Stack.sameInputs props state) eqn:Hs.
  { by rewrite derive_null. }
  destruct (getDerivedStateFromProps_some I props state h Hs)
    as (progress & h1 & scenes & h2 & Hr & Hm & Hd).
  rewrite derive_run, Hd. cbn.
  destruct (reduce_progress _ _ _ _ _ _ _ Hr) as (_ & Hob1 & _).
  destruct (map_from_scenes _ _ _ _ _ _ _ _ _ Hm) as (_ & _ & Hob2 & Hlen & Hall).
  assert (Hscene : forall i scene, scenes !! i = Some scene ->
            (i < length (Routes.items (Props.routes props)))%nat /\
            (State.scenes state !! i = Some scene
             \/ Scene.ref scene = (next_object h + i)%nat)).
  { intros i scene Hi.
    assert (i < length (Routes.items (Props.routes props)))%nat as Hlt
      by (rewrite <- Hlen; by eapply lookup_lt_Some).
    split; [done |].
    destruct (lookup_lt_is_Some_2 _ _ Hlt) as [r Hri].
    rewrite (Hall i r Hri) in Hi. inversion Hi; subst scene; clear Hi.
    cbn. unfold Stack.memoized.
    destruct (State.scenes state !! i) as [old |]; [| right; cbn; lia].
    destruct (Stack.unchanged _ old); [by left | right; cbn; lia]. }
  split.
  - intros i scene Hi. destruct (Hscene _ _ Hi) as [Hlt [Hold | Hnew]].
    + specialize (Hbound _ _ Hold). lia.
    + lia.
  - intros i j scene scene' Hi Hj Href.
    destruct (Hscene _ _ Hi) as [Hlt [Hold | Hnew]];
      destruct (Hscene _ _ Hj) as [Hlt' [Hold' | Hnew']].
    + by eapply Hdistinct.
    + specialize (Hbound _ _ Hold). lia.
    + specialize (Hbound _ _ Hold'). lia.
    + lia.
Qed.

Lemma step_scenes_allocated I c ev :
  scenes_allocated (State.scenes (Component.state c)) (Component.heap c) ->
  scenes_allocated (State.scenes (Component.state (step I c ev)))
    (Component.heap (step I c ev)).
Proof.
  assert (Hre : forall props state h,
            scenes_allocated (State.scenes state) h ->
            scenes_allocated
              (State.scenes (Component.state (rederive I props state h)))
              (Component.heap (rederive I props state h))).
  { intros props state h Ha.
    pose proof (derive_scenes_allocated I props state h Ha) as Hd.
    unfold rederive. by destruct (Stack.derive I props state h). }
  intros Ha. destruct ev as [props' | e | route hgt | l x]; simpl.
  - by apply Hre.
  - destruct (Stack.handleLayout I _ _ e) as [u |] eqn:Hu; [| done].
    unfold Stack.handleLayout in Hu. case_match; [done |].
    inversion Hu; subst u. by apply Hre.
  - destruct (Stack.handleFloatingHeaderLayout _ route hgt) as [f |] eqn:Hf;
      [| done].
    unfold Stack.handleFloatingHeaderLayout in Hf. case_match; [done |].
    inversion Hf; subst f. by apply Hre.
  - done.
Qed.

(** X21. From the mount on, through any sequence of events, the scenes of
    the state are pairwise distinct objects: a scene object is stored at one
    index only, so that a consumer comparing scenes by identity never takes
    the scene of one index for the scene of another. *)
Theorem scene_objects_distinct (I : Imports) (props : Props.t)
    (fresh : nat) (window : Layout) (evs : list Event) :
  let c :=
    run I (rederive I props (Stack.initialState fresh window props)
             initial_heap) evs in
  forall i j scene scene',
    State.scenes (Component.state c) !! i = Some scene ->
    State.scenes (Component.state c) !! j = Some scene' ->
    Scene.ref scene = Scene.ref scene' -> i = j.
Proof.
  intros c.
  assert (forall evs c0,
            scenes_allocated (State.scenes (Component.state c0))
              (Component.heap c0) ->
            scenes_allocated (State.scenes (Component.state (run I c0 evs)))
              (Component.heap (run I c0 evs))) as Hrun.
  { clear. induction evs as [| ev evs IH]; intros c0 H0; [done |].
    simpl. apply IH. by apply step_scenes_allocated. }
  assert (scenes_allocated (State.scenes (Component.state c))
            (Component.heap c)) as [_ Hdistinct]; [| exact Hdistinct].
  apply Hrun.
  pose proof (derive_scenes_allocated I props
                (Stack.initialState fresh window props) initial_heap) as Hd.
  unfold rederive. destruct (Stack.derive I props _ initial_heap). cbn.
  apply Hd. split; intros i; intros; by destruct i.
Qed.

Lemma scene_objects_distinct_witness :
  exists scene scene',
    State.scenes
      (Component.state
         (run (Sample.imports "ios")
            (rederive (Sample.imports "ios") Sample.props2
               (Stack.initialState 0 Sample.window Sample.props2)
               initial_heap)
            [Receive Sample.props3])) !! 0%nat = Some scene /\
    State.scenes
      (Component.state
         (run (Sample.imports "ios")
            (rederive (Sample.imports "ios") Sample.props2
               (Stack.initialState 0 Sample.window Sample.props2)
               initial_heap)
            [Receive Sample.props3])) !! 1%nat = Some scene' /\
    Scene.ref scene <> Scene.ref scene'.
Proof.
  destruct (State.scenes
              (Component.state
                 (run (Sample.imports "ios")
                    (rederive (Sample.imports "ios") Sample.props2
                       (Stack.initialState 0 Sample.window Sample.props2)
                       initial_heap)
                    [Receive Sample.props3])) !! 0%nat) as [scene |] eqn:H0;
    [| vm_compute in H0; discriminate].
  destruct (State.scenes
              (Component.state
                 (run (Sample.imports "ios")
                    (rederive (Sample.imports "ios") Sample.props2
                       (Stack.initialState 0 Sample.window Sample.props2)
                       initial_heap)
                    [Receive Sample.props3])) !! 1%nat) as [scene' |] eqn:H1;
    [| vm_compute in H1; discriminate].
  exists scene, scene'. split; [reflexivity |]. split; [reflexivity |].
  intros Href.
  pose proof (scene_objects_distinct (Sample.imports "ios") Sample.props2 0
                Sample.window [Receive Sample.props3] 0%nat 1%nat scene scene'
                H0 H1 Href) as Heq.
  discriminate Heq.
Defined.

(** * Deriving again *)

(** X22. Deriving a second time from the same props changes nothing: the
    state and the heap the first derivation gave are returned as they are,
    so no animated value and no scene is created by a repeated
    derivation. *)
Theorem derive_idempotent (I : Imports) (props : Props.t) (state : State.t)
    (h : Heap) :
  Stack.derive I props (Stack.derive I props state h).1
    (Stack.derive I props state h).2
  = Stack.derive I props state h.
Proof.
  pose proof (rederive_in_sync I props state h) as [Hsync _].
  unfold rederive in Hsync.
  destruct (Stack.derive I props state h) as [state' h'] eqn:Hd. cbn in *.
  by apply derive_null.
Qed.
